(** * The cliff-walking grid world of [Group HW 2/gridworld/cliffwalker.py]

    A shallow embedding of the class [GridWorld]: its constructor (with the
    random cliff generation), the state iterator [states], the noiseless
    move [target_state] and the transition model [transitions].

    Conventions of the embedding:
    - Python integers are [Z]; probabilities are exact rationals [Q] (the
      float literal [0.1] is [1 # 10]); the statements that turn on how a
      float rounds are proved on a second embedding, module [FP], in which
      every float operation is a parameter;
    - Python sets of states are [gset State];
    - [np.random.random()] reads the next element of a stream of draws,
      threaded through the constructor as a counter;
    - a Python exception is the [Raise] branch of [result]. *)

From Stdlib Require Import ZArith QArith Lia Lqa List.
From stdpp Require Import base decidable countable list sorting gmap fin_sets.

Local Open Scope Z_scope.

(** ** Helper data structures *)

(** [State = namedtuple('State', ['y', 'x'])] *)
Record State : Type := mkState { y : Z; x : Z }.

#[global] Instance State_eq_dec : EqDecision State.
Proof. solve_decision. Defined.

#[global] Instance State_countable : Countable State.
Proof.
  refine (inj_countable' (fun s => (y s, x s)) (fun p => mkState p.1 p.2) _).
  intros []; reflexivity.
Defined.

(** [Transition = namedtuple('Transition', ['state', 'prob', 'reward'])] *)
Record Transition : Type := mkTransition { state : State; prob : Q; reward : Z }.

(** The four action constants, [ACTION_LEFT = 0] ... [ACTION_DOWN = 3]. *)
Inductive Action : Type := ACTION_LEFT | ACTION_RIGHT | ACTION_UP | ACTION_DOWN.

#[global] Instance Action_eq_dec : EqDecision Action.
Proof. solve_decision. Defined.

Definition action_code (a : Action) : Z :=
  match a with
  | ACTION_LEFT => 0
  | ACTION_RIGHT => 1
  | ACTION_UP => 2
  | ACTION_DOWN => 3
  end.

(** [ACTIONS = [ACTION_LEFT, ACTION_RIGHT, ACTION_UP, ACTION_DOWN]] *)
Definition ACTIONS : list Action :=
  [ACTION_LEFT; ACTION_RIGHT; ACTION_UP; ACTION_DOWN].

Definition FALL_REWARD : Z := -40.

(** ** Exceptions *)

Inductive exn : Type := StopIteration | IndexError.

Inductive result (A : Type) : Type :=
| Ok (a : A)
| Raise (e : exn).
Arguments Ok {A} a.
Arguments Raise {A} e.

Definition rbind {A B} (r : result A) (k : A -> result B) : result B :=
  match r with
  | Ok a => k a
  | Raise e => Raise e
  end.

Notation "'let*' v ':=' r 'in' k" := (rbind r (fun v => k))
  (at level 10, v name, r at level 100, k at level 200).

(** A [for] loop whose body may raise: the accumulator is threaded from left
    to right and the first exception leaves the loop. *)
Fixpoint for_each {A B} (l : list B) (body : A -> B -> result A) (acc : A)
  : result A :=
  match l with
  | [] => Ok acc
  | b :: l' => let* acc' := body acc b in for_each l' body acc'
  end.

(** ** Rational comparisons, as the code uses them on floats *)

Definition Qltb (a b : Q) : bool :=
  Qnum a * Zpos (Qden b) <? Qnum b * Zpos (Qden a).

Definition Qneqb (a b : Q) : bool := negb (Qeq_bool a b).

(** [range(n)] *)
Definition range (n : Z) : list Z := seqZ 0 n.

(** ** The model object *)

Record GridWorld : Type := mkGridWorld {
  height : Z;
  width : Z;
  risky_p_loss : Q;
  random_action_p : Q;
  risky_goal_states : gset State;
  initial_state : State;
  goal_states : gset State;
  cliff_states : gset State
}.

(** [next(iter(S))]: the first element in iteration order, [StopIteration]
    on the empty set. *)
Definition next_iter (S : gset State) : result State :=
  match elements S with
  | [] => Raise StopIteration
  | g :: _ => Ok g
  end.

(** *** Construction *)

Section Construction.

(** The stream of values [np.random.random()] returns. *)
Variable draws : nat -> Q.

(** [p_cliff = 0.1 * (y / height)**2 * bool(x > 1 and y > 0 and x < width-2
    and y < height-1)] *)
Definition p_cliff (height width : Z) (s : State) : Q :=
  ((1 # 10) * (inject_Z (y s) / inject_Z height) ^ 2
   * (if (1 <? x s) && (0 <? y s) && (x s <? width - 2) && (y s <? height - 1)
      then 1 else 0))%Q.

(** The body of the inner loop, on the loop state (number of draws taken,
    cliff set). *)
Definition cliff_step (height width : Z) (init : State) (gs : gset State)
    (st : nat * gset State) (s : State) : nat * gset State :=
  let p := p_cliff height width s in
  if bool_decide (s = init) || bool_decide (s ∈ gs) then st
  else
    let r := draws (fst st) in
    if Qltb r p then (S (fst st), {[ s ]} ∪ snd st)
    else (S (fst st), snd st).

(** [for x in range(width): for y in range(height): ...] *)
Definition cliff_loop (height width : Z) (init : State) (gs : gset State)
    (st : nat * gset State) : nat * gset State :=
  fold_left
    (fun st xx =>
       fold_left
         (fun st yy => cliff_step height width init gs st (mkState yy xx))
         (range height) st)
    (range width) st.

(** [GridWorld.__init__(height, width, random_action_p, risky_p_loss)],
    started after [n] draws have been taken from the stream. *)
Definition init (height width : Z) (random_action_p risky_p_loss : Q)
    (n : nat) : GridWorld * nat :=
  let initial := mkState (height - 1) 0 in
  let goals : gset State := {[ mkState (height - 1) (width - 1) ]} in
  let st :=
    if bool_decide (height <> 1)
    then cliff_loop height width initial goals (n, ∅)
    else (n, ∅) in
  (mkGridWorld height width risky_p_loss random_action_p ∅ initial goals
     (snd st), fst st).

End Construction.

(** The model object a construction returns. *)
Definition new_world (draws : nat -> Q) (height width : Z)
    (random_action_p risky_p_loss : Q) : GridWorld :=
  fst (init draws height width random_action_p risky_p_loss 0).

(** *** Queries *)

(** [GridWorld.states]: the generator, as the list of what it yields. *)
Definition states (gw : GridWorld) : list State :=
  flat_map
    (fun yy =>
       flat_map
         (fun xx =>
            let s := mkState yy xx in
            if bool_decide (s ∈ cliff_states gw) then [] else [s])
         (range (width gw)))
    (range (height gw)).

(** [GridWorld.target_state] *)
Definition target_state (gw : GridWorld) (s : State) (a : Action) : State :=
  let xx := x s in
  let yy := y s in
  match a with
  | ACTION_LEFT => mkState yy (Z.max (xx - 1) 0)
  | ACTION_RIGHT => mkState yy (Z.min (xx + 1) (width gw - 1))
  | ACTION_UP => mkState (Z.max (yy - 1) 0) xx
  | ACTION_DOWN => mkState (Z.min (yy + 1) (height gw - 1)) xx
  end.

(** The body of the inner loop of [transitions], over the random action
    [a_], for the nominal action [a]. *)
Definition transitions_step (gw : GridWorld) (s : State) (a : Action)
    (transitions_actions : list Transition) (a_ : Action)
  : result (list Transition) :=
  let s_ := target_state gw s a_ in
  let* rs :=
    (if bool_decide (s_ ∈ cliff_states gw)
     then let* g := next_iter (goal_states gw) in Ok (FALL_REWARD, g)
     else Ok (-1, s_)) in
  let r := fst rs in
  let s_ := snd rs in
  let p := if bool_decide (a_ = a)
           then (1 - random_action_p gw)%Q
           else (random_action_p gw / 3)%Q in
  if Qneqb p 0 then Ok (transitions_actions ++ [mkTransition s_ p r])
  else Ok transitions_actions.

(** [GridWorld.transitions] *)
Definition transitions (gw : GridWorld) (s : State)
  : result (list (list Transition)) :=
  if bool_decide (s ∈ goal_states gw) then
    Ok (map (fun _ => [mkTransition s 1 0]) ACTIONS)
  else if bool_decide (s ∈ risky_goal_states gw) then
    let* goal := next_iter (goal_states gw) in
    Ok (map (fun _ => [mkTransition goal (risky_p_loss gw) (-50);
                       mkTransition goal (1 - risky_p_loss gw)%Q 100])
          ACTIONS)
  else
    for_each ACTIONS
      (fun transitions_full a =>
         let* transitions_actions :=
           for_each ACTIONS (transitions_step gw s a) [] in
         Ok (transitions_full ++ [transitions_actions]))
      [].

(** [transitions(s)[a]] *)
Definition transitions_at (gw : GridWorld) (s : State) (a : Action)
  : result (list Transition) :=
  let* t := transitions gw s in
  match t !! Z.to_nat (action_code a) with
  | Some l => Ok l
  | None => Raise IndexError
  end.

(** ** Vocabulary of the statements *)

Definition in_bounds (gw : GridWorld) (s : State) : Prop :=
  0 <= y s < height gw /\ 0 <= x s < width gw.

(** [sum(p for _, p, _ in l)] *)
Definition sum_probs (l : list Transition) : Q :=
  fold_left (fun acc t => (acc + prob t)%Q) l 0%Q.

(** Draws lie in [[0, 1)], as [np.random.random] documents. *)
Definition unit_draws (draws : nat -> Q) : Prop :=
  forall n, (0 <= draws n)%Q /\ (draws n < 1)%Q.

(** ** The behaviour the specification describes, in its own words *)

(** The displacement (rows, columns) of one cell in the direction of an
    action. *)
Definition direction (a : Action) : Z * Z :=
  match a with
  | ACTION_LEFT => (0, -1)
  | ACTION_RIGHT => (0, 1)
  | ACTION_UP => (-1, 0)
  | ACTION_DOWN => (1, 0)
  end.

(** "The state reached by moving one cell in that direction, clamped to grid
    boundaries (moving off an edge leaves position unchanged in that
    dimension)". *)
Definition clamped_move (gw : GridWorld) (s : State) (a : Action) : State :=
  let y' := y s + fst (direction a) in
  let x' := x s + snd (direction a) in
  mkState (if bool_decide (0 <= y' < height gw) then y' else y s)
          (if bool_decide (0 <= x' < width gw) then x' else x s).

(** "The actually-executed action [a'] is [a] with probability
    [1 - random_action_p], or uniformly one of the remaining three actions
    each with probability [random_action_p / 3]". *)
Definition executed_prob (gw : GridWorld) (a a' : Action) : Q :=
  if bool_decide (a' = a) then (1 - random_action_p gw)%Q
  else (random_action_p gw / 3)%Q.

(** "If that target lands in [cliff_states] ... reward becomes -40 and the
    destination is redirected to the goal state. Otherwise reward is -1 and
    destination is the physical target". *)
Definition spec_outcome (gw : GridWorld) (goal s : State) (a a' : Action)
  : Transition :=
  let target := target_state gw s a' in
  if bool_decide (target ∈ cliff_states gw)
  then mkTransition goal (executed_prob gw a a') (-40)
  else mkTransition target (executed_prob gw a a') (-1).

(** The executed actions that are listed: those of nonzero probability. *)
Definition listed (gw : GridWorld) (a : Action) : list Action :=
  List.filter (fun a' => Qneqb (executed_prob gw a a') 0) ACTIONS.

(** The goal state of a constructed model, bottom right. *)
Definition goal_of (gw : GridWorld) : State :=
  mkState (height gw - 1) (width gw - 1).

(** Row-major order on states: by row, then by column. *)
Definition row_major_lt (s1 s2 : State) : Prop :=
  y s1 < y s2 \/ (y s1 = y s2 /\ x s1 < x s2).

(** *** Vocabulary for the construction *)

(** The cells in the order the constructor visits them: column by column,
    each column from row 0 down. *)
Definition cells (h w : Z) : list State :=
  flat_map (fun xx => map (fun yy => mkState yy xx) (range h)) (range w).

(** The cells the constructor passes over with [continue], before drawing. *)
Definition skipped (init : State) (gs : gset State) (s : State) : bool :=
  bool_decide (s = init) || bool_decide (s ∈ gs).

(** The number of draws taken before the loop over [l] reaches [s]: the
    position, in the stream, of the draw made for [s]. *)
Fixpoint draw_index (init : State) (gs : gset State) (l : list State)
    (s : State) : nat :=
  match l with
  | [] => O
  | c :: l' =>
      if bool_decide (c = s) then O
      else ((if skipped init gs c then 0 else 1) + draw_index init gs l' s)%nat
  end.

(** The position of the draw a construction makes for the cell [s], and
    the draw itself. *)
Definition draw_pos (h w : Z) (s : State) : nat :=
  draw_index (mkState (h - 1) 0) {[ mkState (h - 1) (w - 1) ]} (cells h w) s.

Definition draw_of (draws : nat -> Q) (h w : Z) (s : State) : Q :=
  draws (draw_pos h w s).

(** The band of candidate cells as the specification words it. *)
Definition spec_band (h w : Z) (s : State) : Prop :=
  1 <= x s <= w - 3 /\ 1 <= y s <= h - 2.

(** The specification's cliff rule: no cliff when [height == 1]; otherwise a
    cell of the band that is neither the start nor a goal is a cliff exactly
    when its draw is below [0.1 * (y/height)^2], and no other cell is. *)
Definition spec_cliff_rule (draws : nat -> Q) (h w : Z) (rp lp : Q) : Prop :=
  let gw := new_world draws h w rp lp in
  (h = 1 -> cliff_states gw = ∅) /\
  (h <> 1 -> forall s,
     (spec_band h w s -> s <> initial_state gw -> s ∉ goal_states gw ->
      (s ∈ cliff_states gw <->
       (draw_of draws h w s < (1 # 10) * (inject_Z (y s) / inject_Z h) ^ 2)%Q)) /\
     (~ spec_band h w s \/ s = initial_state gw \/ s ∈ goal_states gw ->
      s ∉ cliff_states gw)).

(** The band of cells where the code lets cliffs appear. *)
Definition in_band (h w : Z) (s : State) : Prop :=
  2 <= x s <= w - 3 /\ 1 <= y s <= h - 2.

(** The whole grid in row-major order. *)
Definition grid (h w : Z) : list State :=
  flat_map (fun yy => map (fun xx => mkState yy xx) (range w)) (range h).

(** *** Vocabulary for failures and for the 5 x 5 scenario *)

(** A call fails: it raises instead of returning. *)
Definition raises {A} (r : result A) : Prop := exists e, r = Raise e.

(** [target_state] as a call: its body has no [raise] and no operation that
    can fail on integer coordinates, so the call always returns. *)
Definition target_state_call (gw : GridWorld) (s : State) (a : Action)
  : result State :=
  Ok (target_state gw s a).

(** "Querying [transitions] or [deterministic_target] on a state outside grid
    bounds should fail with an [OutOfBounds] error". *)
Definition spec_out_of_bounds_fails (gw : GridWorld) (s : State) : Prop :=
  ~ in_bounds gw s ->
  (forall a, raises (target_state_call gw s a)) /\ raises (transitions gw s).

(** The 5 x 5 scenario of the specification: four entries, one per executed
    action, with pairwise distinct destinations, probability 0.9 for the
    nominal action UP and 0.1/3 for the others, summing to 1. *)
Definition spec_scenario_5x5 (draws : nat -> Q) (lp : Q) : Prop :=
  let gw := new_world draws 5 5 (1 # 10) lp in
  exists t1 t2 t3 t4 : Transition,
    transitions_at gw (mkState 2 2) ACTION_UP = Ok [t1; t2; t3; t4] /\
    NoDup [state t1; state t2; state t3; state t4] /\
    (prob t1 == 1 # 30)%Q /\ (prob t2 == 1 # 30)%Q /\
    (prob t3 == 9 # 10)%Q /\ (prob t4 == 1 # 30)%Q /\
    (sum_probs [t1; t2; t3; t4] == 1)%Q.

(** *** Example models *)

(** A 3 x 3 model whose draws are all 1/2: no cell becomes a cliff. *)
Definition calm_3x3 : GridWorld :=
  new_world (fun _ => 1 # 2) 3 3 (1 # 10) (15 # 100).

(** A 5 x 5 model whose draws are all 0: the cells (1,2), (2,2) and (3,2)
    become cliffs. *)
Definition rough_5x5 : GridWorld :=
  new_world (fun _ => 0%Q) 5 5 (1 # 10) (15 # 100).

(** A 3 x 4 model whose draws are all 0. *)
Definition rough_3x4 : GridWorld :=
  new_world (fun _ => 0%Q) 3 4 (1 # 10) (15 # 100).

(** *** The sampler, and vocabulary for walks on the grid *)

(** [GridWorld.sample_transition]. The call
    [np.random.choice(len(trans), p=state_probs)] is the parameter [choice]:
    it receives the number of entries and their probabilities and returns
    the index drawn. *)
Definition sample_transition (choice : nat -> list Q -> nat) (gw : GridWorld)
    (s : State) (a : Action) : result Transition :=
  let* trans := transitions_at gw s a in
  let state_probs := map prob trans in
  match trans !! choice (length trans) state_probs with
  | Some t => Ok t
  | None => Raise IndexError
  end.

(** [np.random.choice(n, ...)] returns an index of [range(n)]. *)
Definition index_choice (choice : nat -> list Q -> nat) : Prop :=
  forall n p, (0 < n)%nat -> (choice n p < n)%nat.

(** The action that moves the other way. *)
Definition opposite (a : Action) : Action :=
  match a with
  | ACTION_LEFT => ACTION_RIGHT
  | ACTION_RIGHT => ACTION_LEFT
  | ACTION_UP => ACTION_DOWN
  | ACTION_DOWN => ACTION_UP
  end.

(** The state lies on the edge of the grid the action moves towards. *)
Definition at_edge (gw : GridWorld) (s : State) (a : Action) : Prop :=
  match a with
  | ACTION_LEFT => x s = 0
  | ACTION_RIGHT => x s = width gw - 1
  | ACTION_UP => y s = 0
  | ACTION_DOWN => y s = height gw - 1
  end.

(** [n] noiseless moves in the direction of [a]. *)
Definition walk (gw : GridWorld) (a : Action) (n : nat) (s : State) : State :=
  Nat.iter n (fun s' => target_state gw s' a) s.

(** ** [pennylane-qnn-example.py]

    Numbers are exact rationals where the code computes with them
    ([square_loss]) and an arbitrary type [R] where it only hands them on to
    the library ([layer], [quantum_neural_net]). *)

Inductive arith_exn : Type := ZeroDivisionError.

(** [square_loss(labels, predictions)]; [zip] is [combine]. *)
Definition square_loss (labels predictions : list Q) : Q + arith_exn :=
  let loss :=
    fold_left (fun loss lp => (loss + (fst lp - snd lp) ^ 2)%Q)
      (combine labels predictions) 0%Q in
  if Nat.eqb (length labels) 0 then inr ZeroDivisionError
  else inl (loss / inject_Z (Z.of_nat (length labels)))%Q.


(** The library calls a circuit makes, with their arguments. *)
Inductive qml_call (R : Type) : Type :=
| Rotation (phi : R) (wires : Z)
| Squeezing (r phi : R) (wires : Z)
| Displacement (a phi : R) (wires : Z)
| Kerr (kappa : R) (wires : Z)
| Beamsplitter (theta phi : R) (wires0 wires1 : Z)
| ExpvalX (wires : Z).
Arguments Rotation {R} phi wires.
Arguments Squeezing {R} r phi wires.
Arguments Displacement {R} a phi wires.
Arguments Kerr {R} kappa wires.
Arguments Beamsplitter {R} theta phi wires0 wires1.
Arguments ExpvalX {R} wires.

(** The wires a call acts on. *)
Definition call_wires {R} (c : qml_call R) : list Z :=
  match c with
  | Rotation _ w | Squeezing _ _ w | Displacement _ _ w | Kerr _ w
  | ExpvalX w => [w]
  | Beamsplitter _ _ w0 w1 => [w0; w1]
  end.

(** A sequence of statements, each a library call whose arguments index a
    list: [None] stands for an index out of range, which raises [IndexError]
    before the call is made and ends the sequence. The calls made so far are
    returned with the outcome. *)
Fixpoint run_calls {R} (steps : list (option (qml_call R)))
  : list (qml_call R) * result unit :=
  match steps with
  | [] => ([], Ok tt)
  | None :: _ => ([], Raise IndexError)
  | Some c :: rest =>
      let r := run_calls rest in (c :: fst r, snd r)
  end.

(** One block of statements after another. *)
Definition and_then {R} (m k : list (qml_call R) * result unit)
  : list (qml_call R) * result unit :=
  match snd m with
  | Ok _ => (fst m ++ fst k, snd k)
  | Raise e => (fst m, Raise e)
  end.

(** [layer(v)] *)
Definition layer {R} (zero : R) (v : list R)
  : list (qml_call R) * result unit :=
  run_calls
    [ (fun p => Rotation p 0) <$> v !! 0%nat;
      (fun p => Squeezing p zero 0) <$> v !! 1%nat;
      (fun p => Rotation p 0) <$> v !! 2%nat;
      (fun p => Displacement p zero 0) <$> v !! 3%nat;
      (fun p => Kerr p 0) <$> v !! 4%nat;
      (fun p => Rotation p 1) <$> v !! 5%nat;
      (fun p => Squeezing p zero 1) <$> v !! 6%nat;
      (fun p => Rotation p 1) <$> v !! 7%nat;
      (fun p => Displacement p zero 1) <$> v !! 8%nat;
      (fun p => Kerr p 1) <$> v !! 9%nat;
      match v !! 10%nat, v !! 11%nat with
      | Some p, Some q => Some (Beamsplitter p q 0 1)
      | _, _ => None
      end;
      match v !! 12%nat, v !! 13%nat with
      | Some p, Some q => Some (Beamsplitter p q 0 1)
      | _, _ => None
      end ].

(** [for v in var: layer(v)] *)
Fixpoint layers {R} (zero : R) (var : list (list R))
  : list (qml_call R) * result unit :=
  match var with
  | [] => ([], Ok tt)
  | v :: var' => and_then (layer zero v) (layers zero var')
  end.

(** [quantum_neural_net(var, x)]: the calls it makes; the value the final
    [qml.expval.X(0)] returns belongs to the library. *)
Definition quantum_neural_net {R} (zero : R) (var : list (list R))
    (x : list R) : list (qml_call R) * result unit :=
  and_then
    (run_calls [ (fun p => Displacement p zero 0) <$> x !! 0%nat;
                 (fun p => Displacement p zero 1) <$> x !! 1%nat ])
    (and_then (layers zero var) ([ExpvalX 0], Ok tt)).

(** * The grid world over any floating-point arithmetic

    Above, floats are exact rationals. Two tests of the code depend on how
    its floats round: [np.random.random() < p_cliff] in the constructor and
    [p != 0] in [transitions]. Here the same code is embedded with every
    float operation it performs left as a parameter, so that what is proved
    holds for the arithmetic the program runs on; the exact rationals are one
    instance. *)

Module FP.

(** The float operations [GridWorld] performs. *)
Record Arith : Type := mkArith {
  F : Type;
  one : F;                   (* the literal 1.0 *)
  tenth : F;                 (* the literal 0.1 *)
  fsub : F -> F -> F;        (* a - b *)
  fmul : F -> F -> F;        (* a * b *)
  fdivz : F -> Z -> F;       (* a / n, n an int *)
  zdiv : Z -> Z -> F;        (* m / n, true division of ints *)
  fpow : F -> Z -> F;        (* a ** n *)
  fmulb : F -> bool -> F;    (* a * bool(...) *)
  fnez : F -> bool;          (* a != 0 *)
  flt : F -> F -> bool       (* a < b *)
}.

(** [Transition = namedtuple('Transition', ['state', 'prob', 'reward'])] *)
Record Transition (A : Arith) : Type :=
  mkTransition { state : State; prob : F A; reward : Z }.
Arguments mkTransition {A} state prob reward.
Arguments state {A} t.
Arguments prob {A} t.
Arguments reward {A} t.

(** The attributes [__init__] sets. *)
Record GridWorld (A : Arith) : Type := mkGridWorld {
  height : Z;
  width : Z;
  risky_p_loss : F A;
  random_action_p : F A;
  risky_goal_states : gset State;
  initial_state : State;
  goal_states : gset State;
  cliff_states : gset State
}.
Arguments mkGridWorld {A}.
Arguments height {A} g.
Arguments width {A} g.
Arguments risky_p_loss {A} g.
Arguments random_action_p {A} g.
Arguments risky_goal_states {A} g.
Arguments initial_state {A} g.
Arguments goal_states {A} g.
Arguments cliff_states {A} g.

(** [p_cliff = 0.1 * (y / height)**2 * bool(x > 1 and y > 0 and x < width-2
    and y < height-1)]. The division is reached with [y] in
    [range(height)] only, hence with [height >= 1]. *)
Definition p_cliff (A : Arith) (height width : Z) (s : State) : F A :=
  fmulb A (fmul A (tenth A) (fpow A (zdiv A (y s) height) 2))
    ((1 <? x s) && (0 <? y s) && (x s <? width - 2) && (y s <? height - 1)).

(** The body of the inner loop of [__init__]. *)
Definition cliff_step (A : Arith) (draws : nat -> F A) (height width : Z)
    (init : State) (gs : gset State) (st : nat * gset State) (s : State)
  : nat * gset State :=
  let p := p_cliff A height width s in
  if bool_decide (s = init) || bool_decide (s ∈ gs) then st
  else
    let r := draws (fst st) in
    if flt A r p then (S (fst st), {[ s ]} ∪ snd st)
    else (S (fst st), snd st).

(** [for x in range(width): for y in range(height): ...] *)
Definition cliff_loop (A : Arith) (draws : nat -> F A) (height width : Z)
    (init : State) (gs : gset State) (st : nat * gset State)
  : nat * gset State :=
  fold_left
    (fun st xx =>
       fold_left
         (fun st yy =>
            cliff_step A draws height width init gs st (mkState yy xx))
         (range height) st)
    (range width) st.

(** [GridWorld.__init__(height, width, random_action_p, risky_p_loss)],
    started after [n] draws have been taken from the stream. *)
Definition init (A : Arith) (draws : nat -> F A) (height width : Z)
    (random_action_p risky_p_loss : F A) (n : nat) : GridWorld A * nat :=
  let initial := mkState (height - 1) 0 in
  let goals : gset State := {[ mkState (height - 1) (width - 1) ]} in
  let st :=
    if bool_decide (height <> 1)
    then cliff_loop A draws height width initial goals (n, ∅)
    else (n, ∅) in
  (mkGridWorld height width risky_p_loss random_action_p ∅ initial goals
     (snd st), fst st).

(** The model object a construction returns. *)
Definition new_world (A : Arith) (draws : nat -> F A) (height width : Z)
    (random_action_p risky_p_loss : F A) : GridWorld A :=
  fst (init A draws height width random_action_p risky_p_loss 0).

(** [GridWorld.target_state] *)
Definition target_state {A : Arith} (gw : GridWorld A) (s : State)
    (a : Action) : State :=
  let xx := x s in
  let yy := y s in
  match a with
  | ACTION_LEFT => mkState yy (Z.max (xx - 1) 0)
  | ACTION_RIGHT => mkState yy (Z.min (xx + 1) (width gw - 1))
  | ACTION_UP => mkState (Z.max (yy - 1) 0) xx
  | ACTION_DOWN => mkState (Z.min (yy + 1) (height gw - 1)) xx
  end.

(** The body of the inner loop of [transitions]. *)
Definition transitions_step {A : Arith} (gw : GridWorld A) (s : State)
    (a : Action) (transitions_actions : list (Transition A)) (a_ : Action)
  : result (list (Transition A)) :=
  let s_ := target_state gw s a_ in
  let* rs :=
    (if bool_decide (s_ ∈ cliff_states gw)
     then let* g := next_iter (goal_states gw) in Ok (FALL_REWARD, g)
     else Ok (-1, s_)) in
  let r := fst rs in
  let s_ := snd rs in
  let p := if bool_decide (a_ = a)
           then fsub A (one A) (random_action_p gw)
           else fdivz A (random_action_p gw) 3 in
  if fnez A p then Ok (transitions_actions ++ [mkTransition s_ p r])
  else Ok transitions_actions.

(** [GridWorld.transitions] *)
Definition transitions {A : Arith} (gw : GridWorld A) (s : State)
  : result (list (list (Transition A))) :=
  if bool_decide (s ∈ goal_states gw) then
    Ok (map (fun _ => [mkTransition s (one A) 0]) ACTIONS)
  else if bool_decide (s ∈ risky_goal_states gw) then
    let* goal := next_iter (goal_states gw) in
    Ok (map (fun _ => [mkTransition goal (risky_p_loss gw) (-50);
                       mkTransition goal (fsub A (one A) (risky_p_loss gw))
                         100])
          ACTIONS)
  else
    for_each ACTIONS
      (fun transitions_full a =>
         let* transitions_actions :=
           for_each ACTIONS (transitions_step gw s a) [] in
         Ok (transitions_full ++ [transitions_actions]))
      [].

(** [transitions(s)[a]] *)
Definition transitions_at {A : Arith} (gw : GridWorld A) (s : State)
    (a : Action) : result (list (Transition A)) :=
  let* t := transitions gw s in
  match t !! Z.to_nat (action_code a) with
  | Some l => Ok l
  | None => Raise IndexError
  end.

(** *** Vocabulary of the statements *)

Definition in_bounds {A : Arith} (gw : GridWorld A) (s : State) : Prop :=
  0 <= y s < height gw /\ 0 <= x s < width gw.

(** The goal state of a constructed model, bottom right. *)
Definition goal_of {A : Arith} (gw : GridWorld A) : State :=
  mkState (height gw - 1) (width gw - 1).

(** The probability the code computes for the executed action [a'] under
    the nominal action [a]: [1.0 - random_action_p] for [a] itself,
    [random_action_p / 3] for each other action. *)
Definition executed_prob {A : Arith} (gw : GridWorld A) (a a' : Action)
  : F A :=
  if bool_decide (a' = a) then fsub A (one A) (random_action_p gw)
  else fdivz A (random_action_p gw) 3.

(** "If that target lands in [cliff_states] ... reward becomes -40 and the
    destination is redirected to the goal state. Otherwise reward is -1 and
    destination is the physical target". *)
Definition spec_outcome {A : Arith} (gw : GridWorld A) (goal s : State)
    (a a' : Action) : Transition A :=
  let target := target_state gw s a' in
  if bool_decide (target ∈ cliff_states gw)
  then mkTransition goal (executed_prob gw a a') (-40)
  else mkTransition target (executed_prob gw a a') (-1).

(** The executed actions whose computed probability passes [p != 0]. *)
Definition listed {A : Arith} (gw : GridWorld A) (a : Action) : list Action :=
  List.filter (fun a' => fnez A (executed_prob gw a a')) ACTIONS.

(** The value the code computes for [0.1 * (y / height)**2]. *)
Definition threshold (A : Arith) (height : Z) (s : State) : F A :=
  fmul A (tenth A) (fpow A (zdiv A (y s) height) 2).

(** A draw is never below a product with [False]: such a product is a zero
    (or not a number) and [np.random.random()] is not negative. *)
Definition draws_not_below_masked (A : Arith) (draws : nat -> F A) : Prop :=
  forall n v, flt A (draws n) (fmulb A v false) = false.

(** A product with [True] compares as the number itself. *)
Definition true_factor_neutral (A : Arith) : Prop :=
  forall r v, flt A r (fmulb A v true) = flt A r v.

(** The exact rationals as an arithmetic. *)
Definition exact : Arith :=
  {| F := Q;
     one := 1%Q;
     tenth := (1 # 10)%Q;
     fsub := Qminus;
     fmul := Qmult;
     fdivz := fun q n => (q / inject_Z n)%Q;
     zdiv := fun m n => (inject_Z m / inject_Z n)%Q;
     fpow := Qpower;
     fmulb := fun q b => (q * (if b then 1 else 0))%Q;
     fnez := fun q => Qneqb q 0;
     flt := Qltb |}.

End FP.

(** ** Basic facts *)

Lemma Qltb_spec (a b : Q) : Qltb a b = true <-> (a < b)%Q.
Proof. unfold Qltb, Qlt. apply Z.ltb_lt. Qed.

Lemma Qneqb_false (a b : Q) : Qneqb a b = false -> (a == b)%Q.
Proof.
  unfold Qneqb. intros H. apply Qeq_bool_iff.
  destruct (Qeq_bool a b); [reflexivity | discriminate].
Qed.

Lemma Qneqb_true (a b : Q) : Qneqb a b = true -> ~ (a == b)%Q.
Proof.
  unfold Qneqb. intros H Heq. apply Qeq_bool_iff in Heq.
  rewrite Heq in H. discriminate.
Qed.

Lemma elem_of_range (n k : Z) : k ∈ range n <-> 0 <= k < n.
Proof. unfold range. rewrite elem_of_seqZ. lia. Qed.

Lemma NoDup_range (n : Z) : NoDup (range n).
Proof. apply NoDup_seqZ. Qed.

Lemma length_range (n : Z) : length (range n) = Z.to_nat n.
Proof. apply length_seqZ. Qed.

Lemma next_iter_singleton (g : State) : next_iter {[ g ]} = Ok g.
Proof. unfold next_iter. rewrite elements_singleton. reflexivity. Qed.

(** ** [target_state] *)

Lemma target_state_clamped (gw : GridWorld) (s : State) (a : Action) :
  in_bounds gw s -> target_state gw s a = clamped_move gw s a.
Proof.
  intros [Hy Hx]. unfold target_state, clamped_move.
  destruct a; simpl; repeat case_bool_decide; f_equal; lia.
Qed.

Lemma target_state_in_bounds (gw : GridWorld) (s : State) (a : Action) :
  in_bounds gw s -> in_bounds gw (target_state gw s a).
Proof.
  intros [Hy Hx]. unfold in_bounds, target_state.
  destruct a; simpl; lia.
Qed.

(** C8. For every in-bounds state and each of the four actions,
    [target_state] returns the one-cell move in that direction clamped to
    the grid (a coordinate that would leave the grid is left unchanged), and
    the returned state is itself inside [[0, height) x [0, width)]. *)
Theorem target_state_clamped_in_bounds (gw : GridWorld) (s : State)
    (a : Action) :
  in_bounds gw s ->
  target_state gw s a = clamped_move gw s a /\
  in_bounds gw (target_state gw s a).
Proof.
  intros Hs. split.
  - apply target_state_clamped, Hs.
  - apply target_state_in_bounds, Hs.
Qed.

(** ** Goal states are absorbing *)

Lemma transitions_goal (gw : GridWorld) (g : State) :
  g ∈ goal_states gw ->
  transitions gw g = Ok (map (fun _ => [mkTransition g 1 0]) ACTIONS).
Proof.
  intros Hg. unfold transitions. rewrite bool_decide_eq_true_2 by exact Hg.
  reflexivity.
Qed.

Lemma transitions_at_goal (gw : GridWorld) (g : State) (a : Action) :
  g ∈ goal_states gw ->
  transitions_at gw g a = Ok [mkTransition g 1 0].
Proof.
  intros Hg. unfold transitions_at. rewrite (transitions_goal gw g Hg).
  destruct a; reflexivity.
Qed.

(** C3. For every goal state [g] and every action [a], [transitions(g)[a]]
    is the one-element list [[(g, 1.0, 0)]]. *)
Theorem goal_absorbing (gw : GridWorld) (g : State) (a : Action) :
  g ∈ goal_states gw ->
  transitions_at gw g a = Ok [mkTransition g 1 0].
Proof.
  intros Hg. unfold transitions_at, transitions.
  rewrite bool_decide_eq_true_2 by exact Hg.
  destruct a; reflexivity.
Qed.

(** ** The general case of [transitions] *)

Lemma transitions_step_outcome (gw : GridWorld) (g s : State) (a a_ : Action)
    (acc : list Transition) :
  next_iter (goal_states gw) = Ok g ->
  transitions_step gw s a acc a_ =
  Ok (acc ++ (if Qneqb (executed_prob gw a a_) 0
              then [spec_outcome gw g s a a_] else [])).
Proof.
  intros Hg. unfold transitions_step, spec_outcome, executed_prob.
  destruct (bool_decide (target_state gw s a_ ∈ cliff_states gw)); simpl.
  - rewrite Hg. simpl.
    destruct (Qneqb _ 0); [reflexivity | by rewrite app_nil_r].
  - destruct (Qneqb _ 0); [reflexivity | by rewrite app_nil_r].
Qed.

Lemma for_each_transitions_step (gw : GridWorld) (g s : State) (a : Action)
    (l : list Action) (acc : list Transition) :
  next_iter (goal_states gw) = Ok g ->
  for_each l (transitions_step gw s a) acc =
  Ok (acc ++ map (spec_outcome gw g s a)
                 (List.filter (fun a' => Qneqb (executed_prob gw a a') 0) l)).
Proof.
  intros Hg. revert acc. induction l as [|a_ l IH]; intros acc; simpl.
  - by rewrite app_nil_r.
  - rewrite (transitions_step_outcome gw g) by exact Hg. simpl.
    rewrite IH. destruct (Qneqb _ 0); simpl.
    + by rewrite <- app_assoc.
    + by rewrite app_nil_r.
Qed.

Lemma for_each_collect {A B} (F : B -> result A) (G : B -> A) (l : list B)
    (acc : list A) :
  (forall b, F b = Ok (G b)) ->
  for_each l (fun full b => let* item := F b in Ok (full ++ [item])) acc =
  Ok (acc ++ map G l).
Proof.
  intros HF. revert acc. induction l as [|b l IH]; intros acc; simpl.
  - by rewrite app_nil_r.
  - rewrite HF. simpl. rewrite IH. by rewrite <- app_assoc.
Qed.

Lemma transitions_general (gw : GridWorld) (g s : State) :
  next_iter (goal_states gw) = Ok g ->
  s ∉ goal_states gw ->
  s ∉ risky_goal_states gw ->
  transitions gw s =
  Ok (map (fun a => map (spec_outcome gw g s a) (listed gw a)) ACTIONS).
Proof.
  intros Hg Hgoal Hrisky. unfold transitions.
  rewrite bool_decide_eq_false_2 by exact Hgoal.
  rewrite bool_decide_eq_false_2 by exact Hrisky.
  apply (for_each_collect _ _ ACTIONS []).
  intros a. by rewrite (for_each_transitions_step gw g).
Qed.

Lemma transitions_at_general (gw : GridWorld) (g s : State) (a : Action) :
  next_iter (goal_states gw) = Ok g ->
  s ∉ goal_states gw ->
  s ∉ risky_goal_states gw ->
  transitions_at gw s a = Ok (map (spec_outcome gw g s a) (listed gw a)).
Proof.
  intros Hg Hgoal Hrisky. unfold transitions_at.
  rewrite (transitions_general gw g s Hg Hgoal Hrisky).
  destruct a; reflexivity.
Qed.

Lemma elem_of_listed (gw : GridWorld) (a a' : Action) :
  a' ∈ listed gw a <-> ~ (executed_prob gw a a' == 0)%Q.
Proof.
  unfold listed. rewrite list_elem_of_In, filter_In. split.
  - intros [_ H]. by apply Qneqb_true.
  - intros H. split.
    + destruct a'; simpl; tauto.
    + destruct (Qneqb (executed_prob gw a a') 0) eqn:E; [done|].
      apply Qneqb_false in E. contradiction.
Qed.

(** *** Fields of a constructed model *)

Lemma new_world_goal_states draws h w rp lp :
  goal_states (new_world draws h w rp lp) = {[ mkState (h - 1) (w - 1) ]}.
Proof. reflexivity. Qed.

Lemma new_world_risky draws h w rp lp :
  risky_goal_states (new_world draws h w rp lp) = ∅.
Proof. reflexivity. Qed.

Lemma new_world_next_goal draws h w rp lp :
  next_iter (goal_states (new_world draws h w rp lp)) =
  Ok (goal_of (new_world draws h w rp lp)).
Proof. rewrite new_world_goal_states. apply next_iter_singleton. Qed.

Lemma new_world_not_risky draws h w rp lp (s : State) :
  s ∉ risky_goal_states (new_world draws h w rp lp).
Proof. rewrite new_world_risky. apply not_elem_of_empty. Qed.

(** ** Probabilities sum to one *)

Lemma sum_from_proper (f : Action -> Q) (l : list Action) (q1 q2 : Q) :
  (q1 == q2)%Q ->
  (fold_left (fun acc a' => acc + f a') l q1 ==
   fold_left (fun acc a' => acc + f a') l q2)%Q.
Proof.
  revert q1 q2. induction l as [|a' l IH]; intros q1 q2 H; simpl.
  - exact H.
  - apply IH. rewrite H. reflexivity.
Qed.

Lemma sum_filter_nonzero (f : Action -> Q) (l : list Action) (q : Q) :
  (fold_left (fun acc a' => acc + f a')
     (List.filter (fun a' => Qneqb (f a') 0) l) q ==
   fold_left (fun acc a' => acc + f a') l q)%Q.
Proof.
  revert q. induction l as [|a' l IH]; intros q; simpl.
  - reflexivity.
  - destruct (Qneqb (f a') 0) eqn:E; simpl.
    + apply IH.
    + apply Qneqb_false in E. rewrite IH. apply sum_from_proper.
      rewrite E. ring.
Qed.

Lemma prob_spec_outcome (gw : GridWorld) (g s : State) (a a' : Action) :
  prob (spec_outcome gw g s a a') = executed_prob gw a a'.
Proof. unfold spec_outcome. by destruct (bool_decide _). Qed.

Lemma sum_probs_map_outcome (gw : GridWorld) (g s : State) (a : Action)
    (l : list Action) (q : Q) :
  fold_left (fun acc t => (acc + prob t)%Q) (map (spec_outcome gw g s a) l) q =
  fold_left (fun acc a' => (acc + executed_prob gw a a')%Q) l q.
Proof.
  revert q. induction l as [|a' l IH]; intros q; simpl; [done|].
  by rewrite prob_spec_outcome, IH.
Qed.

Lemma sum_executed_prob (gw : GridWorld) (a : Action) :
  (fold_left (fun acc a' => acc + executed_prob gw a a') ACTIONS 0 == 1)%Q.
Proof. destruct a; unfold executed_prob; simpl; field. Qed.

Lemma sum_probs_listed (gw : GridWorld) (g s : State) (a : Action) :
  (sum_probs (map (spec_outcome gw g s a) (listed gw a)) == 1)%Q.
Proof.
  unfold sum_probs, listed. rewrite sum_probs_map_outcome.
  rewrite (sum_filter_nonzero (executed_prob gw a)).
  apply sum_executed_prob.
Qed.

(** C1. In a constructed model, for every in-bounds state [s] that is not a
    goal state (and not a cliff state) and every action [a], the call
    [transitions(s)[a]] returns a list whose probabilities, as exact
    rationals, sum to 1. *)
Theorem transition_probs_sum_to_one draws h w rp lp (s : State) (a : Action) :
  let gw := new_world draws h w rp lp in
  in_bounds gw s ->
  s ∉ goal_states gw ->
  s ∉ cliff_states gw ->
  exists l, transitions_at gw s a = Ok l /\ (sum_probs l == 1)%Q.
Proof.
  intros gw _ Hgoal _.
  exists (map (spec_outcome gw (goal_of gw) s a) (listed gw a)). split.
  - apply transitions_at_general;
      [apply new_world_next_goal | done | apply new_world_not_risky].
  - apply sum_probs_listed.
Qed.

(** ** The constructor's cliff generation *)

Lemma fold_left_flat_map {A B C} (f : A -> C -> A) (g : B -> list C)
    (l : list B) (a : A) :
  fold_left f (flat_map g l) a = fold_left (fun a b => fold_left f (g b) a) l a.
Proof.
  revert a. induction l as [|b l IH]; intros a; simpl; [done|].
  by rewrite fold_left_app, IH.
Qed.

Lemma fold_left_map_pre {A B C} (f : A -> C -> A) (g : B -> C) (l : list B)
    (a : A) :
  fold_left f (map g l) a = fold_left (fun a b => f a (g b)) l a.
Proof. revert a. induction l as [|b l IH]; intros a; simpl; [done|]. apply IH. Qed.

Lemma fold_left_ext_eq {A B} (f g : A -> B -> A) (l : list B) (a : A) :
  (forall a b, f a b = g a b) -> fold_left f l a = fold_left g l a.
Proof.
  intros H. revert a. induction l as [|b l IH]; intros a; simpl; [done|].
  by rewrite H, IH.
Qed.

Lemma cliff_loop_cells draws h w init gs st :
  cliff_loop draws h w init gs st =
  fold_left (cliff_step draws h w init gs) (cells h w) st.
Proof.
  unfold cliff_loop, cells. rewrite fold_left_flat_map.
  apply fold_left_ext_eq. intros a b. by rewrite fold_left_map_pre.
Qed.

Lemma elem_of_flat_map {A B} (f : A -> list B) (l : list A) (b : B) :
  b ∈ flat_map f l <-> exists a, a ∈ l /\ b ∈ f a.
Proof.
  rewrite list_elem_of_In, in_flat_map. split; intros (a & Ha & Hb); exists a.
  - by rewrite !list_elem_of_In.
  - by rewrite <- !list_elem_of_In.
Qed.

Lemma elem_of_map {A B} (f : A -> B) (l : list A) (b : B) :
  b ∈ map f l <-> exists a, b = f a /\ a ∈ l.
Proof.
  rewrite list_elem_of_In, in_map_iff. split; intros (a & Ha & Hb); exists a.
  - by rewrite list_elem_of_In.
  - by rewrite <- list_elem_of_In.
Qed.

Lemma elem_of_cells h w (s : State) :
  s ∈ cells h w <-> 0 <= y s < h /\ 0 <= x s < w.
Proof.
  unfold cells. rewrite elem_of_flat_map. split.
  - intros (xx & Hx & Hs). apply elem_of_map in Hs as (yy & -> & Hy).
    apply elem_of_range in Hx, Hy. simpl. lia.
  - intros [Hy Hx]. exists (x s). split; [by apply elem_of_range|].
    apply elem_of_map. exists (y s). split; [by destruct s|by apply elem_of_range].
Qed.

Lemma NoDup_map_inj {A B} (f : A -> B) (l : list A) :
  (forall a1 a2, f a1 = f a2 -> a1 = a2) -> NoDup l -> NoDup (map f l).
Proof.
  intros Hinj. induction 1 as [|a l Ha Hl IH]; simpl; constructor; [|done].
  rewrite elem_of_map. intros (a' & Heq & Ha'). apply Hinj in Heq. by subst.
Qed.

Lemma NoDup_flat_map {A B} (f : A -> list B) (l : list A) :
  (forall a1 a2 b, b ∈ f a1 -> b ∈ f a2 -> a1 = a2) ->
  (forall a, NoDup (f a)) -> NoDup l -> NoDup (flat_map f l).
Proof.
  intros Hdisj Hf. induction 1 as [|a l Ha Hl IH]; simpl; [constructor|].
  apply NoDup_app. split; [apply Hf|]. split; [|exact IH].
  intros b Hb Hb'. apply elem_of_flat_map in Hb' as (a' & Ha' & Hb').
  assert (a = a') by eauto. by subst.
Qed.

Lemma NoDup_cells h w : NoDup (cells h w).
Proof.
  unfold cells. apply NoDup_flat_map.
  - intros x1 x2 s H1 H2.
    apply elem_of_map in H1 as (y1 & -> & _).
    apply elem_of_map in H2 as (y2 & Heq & _). by inversion Heq.
  - intros xx. apply NoDup_map_inj; [|apply NoDup_range].
    intros y1 y2 Heq. by inversion Heq.
  - apply NoDup_range.
Qed.

Lemma cliff_step_eq draws h w init gs (st : nat * gset State) (c : State) :
  cliff_step draws h w init gs st c =
  if skipped init gs c then st
  else (S (fst st),
        if Qltb (draws (fst st)) (p_cliff h w c) then {[ c ]} ∪ snd st
        else snd st).
Proof.
  unfold cliff_step, skipped.
  destruct (bool_decide (c = init) || bool_decide (c ∈ gs)); [done|].
  by destruct (Qltb _ _).
Qed.

(** What the loop over a duplicate-free list of cells leaves in the cliff
    set: what was there, and every cell not passed over whose own draw is
    below its [p_cliff]. *)
Lemma fold_cliff_step_elem draws h w init gs (l : list State) :
  NoDup l ->
  forall (n : nat) (C : gset State) (s : State),
    s ∈ snd (fold_left (cliff_step draws h w init gs) l (n, C)) <->
    s ∈ C \/
    (s ∈ l /\ skipped init gs s = false /\
     Qltb (draws (n + draw_index init gs l s)%nat) (p_cliff h w s) = true).
Proof.
  induction 1 as [|c l Hc Hl IH]; intros n C s; simpl.
  - split; [by left|]. intros [H|[H _]]; [done|]. by apply elem_of_nil in H.
  - rewrite cliff_step_eq. simpl. destruct (skipped init gs c) eqn:Hskip.
    + rewrite IH. split.
      * intros [H|(Hin & Hs & Hd)]; [by left|right].
        split; [by apply elem_of_cons; right|]. split; [done|].
        rewrite bool_decide_eq_false_2 by (intros ->; done). exact Hd.
      * intros [H|(Hin & Hs & Hd)]; [by left|right].
        apply elem_of_cons in Hin as [->|Hin]; [congruence|].
        split; [done|]. split; [done|].
        rewrite bool_decide_eq_false_2 in Hd by (intros ->; done). exact Hd.
    + rewrite IH. split.
      * intros [H|(Hin & Hs & Hd)].
        -- destruct (Qltb (draws n) (p_cliff h w c)) eqn:Hq; [|by left].
           apply elem_of_union in H as [H|H]; [|by left].
           apply elem_of_singleton in H as ->. right.
           split; [by apply elem_of_cons; left|]. split; [done|].
           rewrite bool_decide_eq_true_2 by done. by rewrite Nat.add_0_r.
        -- right. split; [by apply elem_of_cons; right|]. split; [done|].
           rewrite bool_decide_eq_false_2 by (intros ->; done).
           replace (n + (1 + draw_index init gs l s))%nat
             with (S n + draw_index init gs l s)%nat by lia.
           exact Hd.
      * intros [H|(Hin & Hs & Hd)].
        -- left. destruct (Qltb _ _); [apply elem_of_union; by right|done].
        -- apply elem_of_cons in Hin as [->|Hin].
           ++ rewrite bool_decide_eq_true_2 in Hd by done.
              rewrite Nat.add_0_r in Hd. rewrite Hd. left.
              apply elem_of_union. left. by apply elem_of_singleton.
           ++ right. split; [done|]. split; [done|].
              rewrite bool_decide_eq_false_2 in Hd by (intros ->; done).
              replace (n + (1 + draw_index init gs l s))%nat
                with (S n + draw_index init gs l s)%nat in Hd by lia.
              exact Hd.
Qed.

(** In a 3 x 4 grid the columns are visited in turn and the start [(2, 0)]
    takes no draw: the cell [(1, 1)] reads the draw at position 3, and the
    cell [(0, 3)] the draw at position 8. *)
Example draw_pos_3x4_column_1 : draw_pos 3 4 (mkState 1 1) = 3%nat.
Proof. reflexivity. Qed.

Example draw_pos_3x4_column_3 : draw_pos 3 4 (mkState 0 3) = 8%nat.
Proof. reflexivity. Qed.

(** Distinct cells that are not passed over read distinct draws. *)
Lemma draw_index_inj init gs (l : list State) :
  NoDup l ->
  forall s1 s2, s1 ∈ l -> s2 ∈ l ->
    skipped init gs s1 = false -> skipped init gs s2 = false ->
    draw_index init gs l s1 = draw_index init gs l s2 -> s1 = s2.
Proof.
  induction 1 as [|c l Hc Hl IH]; intros s1 s2 H1 H2 Hs1 Hs2; simpl.
  - by apply elem_of_nil in H1.
  - repeat case_bool_decide; subst; try done.
    + rewrite Hs1. simpl. discriminate.
    + rewrite Hs2. simpl. discriminate.
    + intros Heq. apply elem_of_cons in H1 as [->|H1]; [done|].
      apply elem_of_cons in H2 as [->|H2]; [done|].
      apply IH; try done. lia.
Qed.

Lemma new_world_cliff_elem draws h w rp lp (s : State) :
  s ∈ cliff_states (new_world draws h w rp lp) <->
  h <> 1 /\ s ∈ cells h w /\
  skipped (mkState (h - 1) 0) {[ mkState (h - 1) (w - 1) ]} s = false /\
  Qltb (draw_of draws h w s) (p_cliff h w s) = true.
Proof.
  unfold new_world, init. simpl. case_bool_decide as Hh; simpl.
  - rewrite cliff_loop_cells, fold_cliff_step_elem by apply NoDup_cells.
    unfold draw_of, draw_pos. simpl. split.
    + intros [H|H]; [by apply not_elem_of_empty in H|]. by split.
    + intros [_ H]. by right.
  - split; [intros H; by apply not_elem_of_empty in H|]. intros [H _]. done.
Qed.

Lemma p_cliff_in_band h w (s : State) :
  in_band h w s ->
  (p_cliff h w s == (1 # 10) * (inject_Z (y s) / inject_Z h) ^ 2)%Q.
Proof.
  intros [Hx Hy]. unfold p_cliff.
  replace (1 <? x s) with true by (symmetry; apply Z.ltb_lt; lia).
  replace (0 <? y s) with true by (symmetry; apply Z.ltb_lt; lia).
  replace (x s <? w - 2) with true by (symmetry; apply Z.ltb_lt; lia).
  replace (y s <? h - 1) with true by (symmetry; apply Z.ltb_lt; lia).
  simpl. ring.
Qed.

Lemma p_cliff_off_band h w (s : State) :
  ~ in_band h w s -> (p_cliff h w s == 0)%Q.
Proof.
  intros Hb. unfold p_cliff.
  destruct ((1 <? x s) && (0 <? y s) && (x s <? w - 2) && (y s <? h - 1))
    eqn:E; [|ring].
  exfalso. apply Hb.
  apply andb_prop in E as [E E4]. apply andb_prop in E as [E E3].
  apply andb_prop in E as [E1 E2].
  apply Z.ltb_lt in E1, E2, E3, E4. unfold in_band. lia.
Qed.

Lemma Qltb_proper_r (a b c : Q) : (b == c)%Q -> Qltb a b = Qltb a c.
Proof.
  intros H. destruct (Qltb a c) eqn:E.
  - apply Qltb_spec. apply Qltb_spec in E. by rewrite H.
  - destruct (Qltb a b) eqn:E'; [|done].
    apply Qltb_spec in E'. rewrite H in E'. apply Qltb_spec in E'. congruence.
Qed.

Lemma in_band_kept h w (s : State) :
  in_band h w s ->
  s ∈ cells h w /\
  skipped (mkState (h - 1) 0) {[ mkState (h - 1) (w - 1) ]} s = false.
Proof.
  intros [Hx Hy]. split; [apply elem_of_cells; lia|].
  unfold skipped. apply orb_false_intro.
  - apply bool_decide_eq_false_2. intros ->. simpl in *. lia.
  - apply bool_decide_eq_false_2. intros H.
    apply elem_of_singleton in H as ->. simpl in *. lia.
Qed.

Lemma new_world_cliff_in_band draws h w rp lp (s : State) :
  unit_draws draws ->
  s ∈ cliff_states (new_world draws h w rp lp) -> in_band h w s.
Proof.
  intros Hd Hs. apply new_world_cliff_elem in Hs as (_ & _ & _ & Hq).
  destruct (decide (in_band h w s)) as [|Hn]; [done|].
  rewrite (Qltb_proper_r _ _ 0 (p_cliff_off_band h w s Hn)) in Hq.
  apply Qltb_spec in Hq. destruct (Hd (draw_pos h w s)) as [H0 _].
  unfold draw_of in Hq. exfalso. by apply (Qlt_not_le _ _ Hq).
Qed.

Lemma new_world_cliff_not_skipped draws h w rp lp (s : State) :
  s ∈ cliff_states (new_world draws h w rp lp) ->
  s <> mkState (h - 1) 0 /\ s <> mkState (h - 1) (w - 1).
Proof.
  intros Hs. apply new_world_cliff_elem in Hs as (_ & _ & Hk & _).
  unfold skipped in Hk. apply orb_false_elim in Hk as [H1 H2].
  apply bool_decide_eq_false in H1, H2. split; [done|].
  intros ->. apply H2. by apply elem_of_singleton.
Qed.

Lemma new_world_cliff_in_grid draws h w rp lp (s : State) :
  s ∈ cliff_states (new_world draws h w rp lp) ->
  0 <= y s < h /\ 0 <= x s < w.
Proof.
  intros Hs. apply new_world_cliff_elem in Hs as (_ & Hc & _).
  by apply elem_of_cells.
Qed.

(** C6. For every construction (any height, width, probabilities and random
    draws), the initial state [(height-1, 0)] and every member of
    [goal_states] are not members of [cliff_states]. *)
Theorem start_and_goals_not_cliffs draws h w rp lp :
  let gw := new_world draws h w rp lp in
  initial_state gw = mkState (h - 1) 0 /\
  (initial_state gw ∉ cliff_states gw) /\
  (forall g, g ∈ goal_states gw -> g ∉ cliff_states gw).
Proof.
  intros gw. split; [reflexivity|]. split.
  - intros H. apply new_world_cliff_not_skipped in H as [H _]. by apply H.
  - intros g Hg H. apply new_world_cliff_not_skipped in H as [_ H].
    apply H. unfold gw in Hg. rewrite new_world_goal_states in Hg.
    by apply elem_of_singleton in Hg.
Qed.

(** ** The state iterator *)

Lemma row_filter (C : gset State) (yy : Z) (xs : list Z) :
  flat_map (fun xx => if bool_decide (mkState yy xx ∈ C) then []
                      else [mkState yy xx]) xs =
  filter (fun s => s ∉ C) (map (fun xx => mkState yy xx) xs).
Proof.
  induction xs as [|xx xs IH]; simpl; [done|].
  rewrite filter_cons, IH. case_bool_decide; case_decide; done.
Qed.

Lemma states_filter (gw : GridWorld) :
  states gw =
  filter (fun s => s ∉ cliff_states gw) (grid (height gw) (width gw)).
Proof.
  unfold states, grid. induction (range (height gw)) as [|yy ys IH]; simpl.
  - done.
  - by rewrite filter_app, IH, row_filter.
Qed.

Lemma elem_of_grid h w (s : State) :
  s ∈ grid h w <-> 0 <= y s < h /\ 0 <= x s < w.
Proof.
  unfold grid. rewrite elem_of_flat_map. split.
  - intros (yy & Hy & Hs). apply elem_of_map in Hs as (xx & -> & Hx).
    apply elem_of_range in Hx, Hy. simpl. lia.
  - intros [Hy Hx]. exists (y s). split; [by apply elem_of_range|].
    apply elem_of_map. exists (x s). split; [by destruct s|by apply elem_of_range].
Qed.

Lemma length_flat_map_const {A B} (f : A -> list B) (l : list A) (k : nat) :
  (forall a, length (f a) = k) -> length (flat_map f l) = (length l * k)%nat.
Proof.
  intros Hf. induction l as [|a l IH]; simpl; [done|].
  by rewrite length_app, Hf, IH.
Qed.

Lemma length_grid h w : length (grid h w) = (Z.to_nat h * Z.to_nat w)%nat.
Proof.
  unfold grid. rewrite (length_flat_map_const _ _ (Z.to_nat w)).
  - by rewrite length_range.
  - intros yy. by rewrite length_map, length_range.
Qed.

Lemma seq_sorted (m : Z) (len start : nat) :
  StronglySorted Z.lt ((fun i => Z.of_nat i + m) <$> seq start len).
Proof.
  revert start. induction len as [|len IH]; intros start; simpl.
  - constructor.
  - constructor; [apply IH|]. apply Forall_forall. intros k Hk.
    apply list_elem_of_fmap in Hk as (i & -> & Hi).
    apply list_elem_of_In, in_seq in Hi. lia.
Qed.

Lemma range_sorted (n : Z) : StronglySorted Z.lt (range n).
Proof. apply seq_sorted. Qed.

Lemma StronglySorted_map_mono {A B} (R : relation A) (R' : relation B)
    (f : A -> B) (l : list A) :
  (forall a1 a2, R a1 a2 -> R' (f a1) (f a2)) ->
  StronglySorted R l -> StronglySorted R' (map f l).
Proof.
  intros Hf. induction 1 as [|a l Hl IH Ha]; simpl; constructor; [done|].
  apply Forall_forall. intros b Hb. apply elem_of_map in Hb as (a' & -> & Ha').
  apply Hf. by eapply Forall_forall in Ha.
Qed.

Lemma StronglySorted_flat_map {A B} (R : relation A) (R' : relation B)
    (f : A -> list B) (l : list A) :
  (forall a, StronglySorted R' (f a)) ->
  (forall a1 a2 b1 b2, R a1 a2 -> b1 ∈ f a1 -> b2 ∈ f a2 -> R' b1 b2) ->
  StronglySorted R l -> StronglySorted R' (flat_map f l).
Proof.
  intros Hf Hcross. induction 1 as [|a l Hl IH Ha]; simpl; [constructor|].
  apply StronglySorted_app_2; [|apply Hf|exact IH].
  intros b1 b2 Hb1 Hb2. apply elem_of_flat_map in Hb2 as (a' & Ha' & Hb2).
  apply (Hcross a a'); [|done|done]. by eapply Forall_forall in Ha.
Qed.

Lemma StronglySorted_filter_keep {A} (R : relation A) (P : A -> Prop)
    `{!forall a, Decision (P a)} (l : list A) :
  StronglySorted R l -> StronglySorted R (filter P l).
Proof.
  induction 1 as [|a l Hl IH Ha]; [constructor|].
  rewrite filter_cons. case_decide; [|done]. constructor; [done|].
  apply Forall_forall. intros b Hb. apply list_elem_of_filter in Hb as [_ Hb].
  by eapply Forall_forall in Ha.
Qed.

Lemma grid_sorted h w : StronglySorted row_major_lt (grid h w).
Proof.
  unfold grid. apply (StronglySorted_flat_map Z.lt); [| |apply range_sorted].
  - intros yy. apply (StronglySorted_map_mono Z.lt); [|apply range_sorted].
    intros x1 x2 Hx. right. simpl. lia.
  - intros y1 y2 s1 s2 Hy H1 H2.
    apply elem_of_map in H1 as (x1 & -> & _).
    apply elem_of_map in H2 as (x2 & -> & _). by left.
Qed.

Lemma row_major_sorted_NoDup (l : list State) :
  StronglySorted row_major_lt l -> NoDup l.
Proof.
  induction 1 as [|s l Hl IH Hs]; constructor; [|done].
  intros Hin. eapply Forall_forall in Hs; [|exact Hin].
  unfold row_major_lt in Hs. lia.
Qed.

Lemma length_filter_split {A} (P : A -> Prop) `{!forall a, Decision (P a)}
    (l : list A) :
  (length (filter P l) + length (filter (fun a => ~ P a) l))%nat = length l.
Proof.
  rewrite <- length_app. apply Permutation_length, filter_app_complement.
Qed.

Lemma size_subset_of_list (C : gset State) (l : list State) :
  NoDup l -> (forall s, s ∈ C -> s ∈ l) ->
  size C = length (filter (fun s => s ∈ C) l).
Proof.
  intros Hl Hsub.
  rewrite <- (size_list_to_set (C:=gset State)) by by apply NoDup_filter.
  f_equal. apply set_eq. intros s.
  rewrite elem_of_list_to_set, list_elem_of_filter. split.
  - intros Hs. split; [done|by apply Hsub].
  - by intros [Hs _].
Qed.

Lemma length_states (gw : GridWorld) :
  (forall s, s ∈ cliff_states gw -> in_bounds gw s) ->
  (length (states gw) + size (cliff_states gw))%nat =
  (Z.to_nat (height gw) * Z.to_nat (width gw))%nat.
Proof.
  intros Hsub. rewrite states_filter, <- length_grid.
  rewrite (size_subset_of_list _ (grid (height gw) (width gw))).
  - rewrite Nat.add_comm.
    apply (length_filter_split (fun s => s ∈ cliff_states gw)).
  - apply row_major_sorted_NoDup, grid_sorted.
  - intros s Hs. apply elem_of_grid. by apply Hsub.
Qed.

(** C7. For a model constructed with [0 <= height] and [0 <= width],
    [states()] yields exactly [height*width - |cliff_states|] states; they
    are pairwise distinct, none is a cliff state, every state of the grid
    that is not a cliff state is among them, and they come in row-major
    order (by row, and by column within a row). *)
Theorem states_enumeration draws h w rp lp :
  0 <= h -> 0 <= w ->
  let gw := new_world draws h w rp lp in
  Z.of_nat (length (states gw)) = h * w - Z.of_nat (size (cliff_states gw)) /\
  NoDup (states gw) /\
  (forall s, s ∈ states gw <-> in_bounds gw s /\ s ∉ cliff_states gw) /\
  StronglySorted row_major_lt (states gw).
Proof.
  intros Hh Hw gw.
  assert (Hsorted : StronglySorted row_major_lt (states gw)).
  { rewrite states_filter. apply StronglySorted_filter_keep, grid_sorted. }
  split; [|split; [|split]].
  - pose proof (length_states gw) as Hlen.
    assert (Hsub : forall s, s ∈ cliff_states gw -> in_bounds gw s).
    { intros s Hs. by apply new_world_cliff_in_grid in Hs. }
    specialize (Hlen Hsub). change (height gw) with h in Hlen.
    change (width gw) with w in Hlen. nia.
  - by apply row_major_sorted_NoDup.
  - intros s. rewrite states_filter, list_elem_of_filter, elem_of_grid.
    unfold in_bounds. change (height gw) with h. change (width gw) with w.
    tauto.
  - exact Hsorted.
Qed.

(** ** Destinations are never cliffs *)

Lemma state_spec_outcome (gw : GridWorld) (g s : State) (a a' : Action) :
  state (spec_outcome gw g s a a') =
  if bool_decide (target_state gw s a' ∈ cliff_states gw) then g
  else target_state gw s a'.
Proof. unfold spec_outcome. by destruct (bool_decide _). Qed.

Lemma new_world_goal_not_cliff draws h w rp lp :
  goal_of (new_world draws h w rp lp) ∉ cliff_states (new_world draws h w rp lp).
Proof.
  intros H. apply (new_world_cliff_not_skipped draws h w rp lp) in H as [_ H].
  by apply H.
Qed.

Lemma new_world_transitions_at draws h w rp lp (s : State) (a : Action) :
  let gw := new_world draws h w rp lp in
  transitions_at gw s a =
  Ok (if bool_decide (s ∈ goal_states gw) then [mkTransition s 1 0]
      else map (spec_outcome gw (goal_of gw) s a) (listed gw a)).
Proof.
  intros gw. case_bool_decide as Hg.
  - by apply transitions_at_goal.
  - apply transitions_at_general;
      [apply new_world_next_goal | done | apply new_world_not_risky].
Qed.

(** C10. In a constructed model, for every in-bounds state [s] and every
    action, [transitions(s)[a]] returns a list, and the destination of each
    of its entries is not a cliff state. *)
Theorem destinations_not_cliffs draws h w rp lp (s : State) (a : Action) :
  let gw := new_world draws h w rp lp in
  in_bounds gw s ->
  exists l, transitions_at gw s a = Ok l /\
            forall t, t ∈ l -> state t ∉ cliff_states gw.
Proof.
  intros gw _. eexists. split; [apply new_world_transitions_at|].
  fold gw. intros t Ht. case_bool_decide as Hg.
  - apply list_elem_of_singleton in Ht as ->. simpl.
    unfold gw in Hg. rewrite new_world_goal_states in Hg.
    apply elem_of_singleton in Hg as ->.
    apply (new_world_goal_not_cliff draws h w rp lp).
  - apply elem_of_map in Ht as (a' & -> & _). rewrite state_spec_outcome.
    case_bool_decide as Hc;
      [apply (new_world_goal_not_cliff draws h w rp lp)|exact Hc].
Qed.

(** ** Calls on states outside the grid *)

Lemma length_new_world_transitions draws h w rp lp (s : State) :
  exists t, transitions (new_world draws h w rp lp) s = Ok t /\ length t = 4%nat.
Proof.
  set (gw := new_world draws h w rp lp).
  destruct (decide (s ∈ goal_states gw)) as [Hg|Hg].
  - eexists. split; [by apply transitions_goal|reflexivity].
  - eexists. split.
    + apply (transitions_general gw (goal_of gw));
        [apply new_world_next_goal | done | apply new_world_not_risky].
    + reflexivity.
Qed.

(** C5, amended. Neither call checks bounds. On every state of a constructed
    model, inside the grid or not, [target_state] returns a state: the one
    with the moved coordinate at [max(x-1, 0)], [min(x+1, width-1)],
    [max(y-1, 0)] or [min(y+1, height-1)] and the other coordinate
    unchanged; and [transitions] returns four lists, one per action, without
    raising. *)
Theorem no_bounds_check draws h w rp lp (s : State) :
  let gw := new_world draws h w rp lp in
  (forall a, exists s', target_state_call gw s a = Ok s' /\
     s' = match a with
          | ACTION_LEFT => mkState (y s) (Z.max (x s - 1) 0)
          | ACTION_RIGHT => mkState (y s) (Z.min (x s + 1) (w - 1))
          | ACTION_UP => mkState (Z.max (y s - 1) 0) (x s)
          | ACTION_DOWN => mkState (Z.min (y s + 1) (h - 1)) (x s)
          end) /\
  (exists t, transitions gw s = Ok t /\ length t = 4%nat) /\
  (forall a, exists l, transitions_at gw s a = Ok l /\ (length l <= 4)%nat).
Proof.
  intros gw. split; [|split].
  - intros a. eexists. split; [reflexivity|]. by destruct a.
  - apply length_new_world_transitions.
  - intros a. eexists. split; [apply new_world_transitions_at|].
    fold gw. case_bool_decide; simpl; [lia|].
    rewrite length_map. unfold listed.
    etransitivity; [apply List.filter_length_le|]. reflexivity.
Qed.

(** C5, as stated, fails: in a 3 x 3 model both calls return on the state
    [(7, 7)], which lies outside the grid. *)
Lemma out_of_bounds_call_returns :
  ~ spec_out_of_bounds_fails
      (new_world (fun _ => 0%Q) 3 3 (1 # 10) (15 # 100)) (mkState 7 7).
Proof.
  intros H. destruct H as [_ [e He]].
  - unfold in_bounds. simpl. lia.
  - destruct (length_new_world_transitions (fun _ => 0%Q) 3 3 (1 # 10)
                (15 # 100) (mkState 7 7)) as (t & Ht & _).
    rewrite Ht in He. discriminate.
Qed.

(** ** The 5 x 5 scenario *)

Lemma zero_unit_draws : unit_draws (fun _ => 0%Q).
Proof. intros n. split; unfold Qle, Qlt; simpl; lia. Qed.

Lemma unit_draws_off_band draws h w rp lp (s : State) :
  unit_draws draws -> ~ in_band h w s ->
  s ∉ cliff_states (new_world draws h w rp lp).
Proof.
  intros Hd Hb Hs. apply Hb. by apply (new_world_cliff_in_band draws h w rp lp).
Qed.

(** C9, amended. For a model constructed with [height=5], [width=5],
    [random_action_p=0.1], the list [transitions((2,2))[UP]] has exactly four
    entries, one per executed action in the order LEFT, RIGHT, UP, DOWN, with
    probabilities 1/30, 1/30, 9/10 and 1/30, which sum to 1. Their
    destinations are pairwise distinct unless both [(1,2)] and [(3,2)] are
    cliff states, in which case the entries of UP and DOWN both lead to the
    goal state. *)
Theorem scenario_5x5 draws lp :
  unit_draws draws ->
  let gw := new_world draws 5 5 (1 # 10) lp in
  let out := spec_outcome gw (goal_of gw) (mkState 2 2) ACTION_UP in
  let l := [out ACTION_LEFT; out ACTION_RIGHT; out ACTION_UP; out ACTION_DOWN] in
  transitions_at gw (mkState 2 2) ACTION_UP = Ok l /\
  (prob (out ACTION_LEFT) == 1 # 30)%Q /\
  (prob (out ACTION_RIGHT) == 1 # 30)%Q /\
  (prob (out ACTION_UP) == 9 # 10)%Q /\
  (prob (out ACTION_DOWN) == 1 # 30)%Q /\
  (sum_probs l == 1)%Q /\
  (~ (mkState 1 2 ∈ cliff_states gw /\ mkState 3 2 ∈ cliff_states gw) ->
   NoDup (map state l)) /\
  (mkState 1 2 ∈ cliff_states gw /\ mkState 3 2 ∈ cliff_states gw ->
   state (out ACTION_UP) = goal_of gw /\ state (out ACTION_DOWN) = goal_of gw).
Proof.
  intros Hd gw out l.
  assert (Hlisted : listed gw ACTION_UP = ACTIONS) by reflexivity.
  assert (Hl : l = map out (listed gw ACTION_UP)) by (by rewrite Hlisted).
  repeat split.
  - rewrite Hl. apply transitions_at_general;
      [apply new_world_next_goal | | apply new_world_not_risky].
    unfold gw. rewrite new_world_goal_states, elem_of_singleton. discriminate.
  - unfold out. by rewrite prob_spec_outcome.
  - unfold out. by rewrite prob_spec_outcome.
  - unfold out. by rewrite prob_spec_outcome.
  - unfold out. by rewrite prob_spec_outcome.
  - rewrite Hl. apply sum_probs_listed.
  - intros Hboth. unfold l, out. simpl. rewrite !state_spec_outcome.
    change (target_state gw (mkState 2 2) ACTION_LEFT) with (mkState 2 1).
    change (target_state gw (mkState 2 2) ACTION_RIGHT) with (mkState 2 3).
    change (target_state gw (mkState 2 2) ACTION_UP) with (mkState 1 2).
    change (target_state gw (mkState 2 2) ACTION_DOWN) with (mkState 3 2).
    change (goal_of gw) with (mkState 4 4).
    rewrite (bool_decide_eq_false_2 (mkState 2 1 ∈ cliff_states gw))
      by (apply unit_draws_off_band; [done|]; unfold in_band; simpl; lia).
    rewrite (bool_decide_eq_false_2 (mkState 2 3 ∈ cliff_states gw))
      by (apply unit_draws_off_band; [done|]; unfold in_band; simpl; lia).
    do 2 case_bool_decide; [tauto|..];
      by apply (bool_decide_unpack _).
  - unfold out. rewrite state_spec_outcome.
    change (target_state gw (mkState 2 2) ACTION_UP) with (mkState 1 2).
    by rewrite bool_decide_eq_true_2 by tauto.
  - unfold out. rewrite state_spec_outcome.
    change (target_state gw (mkState 2 2) ACTION_DOWN) with (mkState 3 2).
    by rewrite bool_decide_eq_true_2 by tauto.
Qed.

(** C9, as stated, fails: when the draws make both [(1,2)] and [(3,2)]
    cliffs, the entries of UP and DOWN share the goal state as
    destination. *)
Lemma scenario_5x5_shared_destination :
  unit_draws (fun _ => 0%Q) /\
  ~ spec_scenario_5x5 (fun _ => 0%Q) (15 # 100).
Proof.
  split; [apply zero_unit_draws|].
  intros (t1 & t2 & t3 & t4 & Ht & Hnd & _).
  assert (Hrun :
    transitions_at (new_world (fun _ => 0%Q) 5 5 (1 # 10) (15 # 100))
      (mkState 2 2) ACTION_UP =
    Ok [mkTransition (mkState 2 1) (1 # 30) (-1);
        mkTransition (mkState 2 3) (1 # 30) (-1);
        mkTransition (mkState 4 4) (9 # 10) (-40);
        mkTransition (mkState 4 4) (1 # 30) (-40)])
    by (vm_compute; reflexivity).
  rewrite Hrun in Ht. injection Ht as <- <- <- <-. simpl in Hnd.
  apply NoDup_cons in Hnd as [_ Hnd]. apply NoDup_cons in Hnd as [_ Hnd].
  apply NoDup_cons in Hnd as [Hnd _]. apply Hnd. by apply elem_of_cons; left.
Qed.

(** C4, as stated, fails: in a 3 x 4 model the cell [(1, 1)] lies in the band
    [1 <= x <= width-3], its draw 0 is below [0.1 * (1/3)^2], and yet it is
    not a cliff: the code requires [x > 1]. *)
Lemma column_one_never_cliff :
  unit_draws (fun _ => 0%Q) /\
  ~ spec_cliff_rule (fun _ => 0%Q) 3 4 (1 # 10) (15 # 100).
Proof.
  split; [apply zero_unit_draws|].
  intros [_ H]. destruct (H ltac:(lia) (mkState 1 1)) as [H1 _].
  assert (Hno : bool_decide (mkState 1 1 ∈
            cliff_states (new_world (fun _ => 0%Q) 3 4 (1 # 10) (15 # 100)))
          = false) by (vm_compute; reflexivity).
  apply bool_decide_eq_false in Hno. apply Hno. apply H1.
  - unfold spec_band. simpl. lia.
  - discriminate.
  - rewrite new_world_goal_states, elem_of_singleton. discriminate.
  - reflexivity.
Qed.

(** ** The theorems at concrete inputs *)

Lemma half_unit_draws : unit_draws (fun _ => 1 # 2).
Proof. intros n. split; unfold Qle, Qlt; simpl; lia. Defined.

Lemma transition_probs_sum_to_one_witness :
  in_bounds calm_3x3 (mkState 1 1) /\
  (mkState 1 1 ∉ goal_states calm_3x3) /\
  (mkState 1 1 ∉ cliff_states calm_3x3) /\
  exists l, transitions_at calm_3x3 (mkState 1 1) ACTION_RIGHT = Ok l /\
            (sum_probs l == 1)%Q.
Proof.
  assert (Hb : in_bounds calm_3x3 (mkState 1 1))
    by (unfold in_bounds; simpl; lia).
  assert (Hg : mkState 1 1 ∉ goal_states calm_3x3)
    by (apply (bool_decide_unpack _); vm_compute; exact I).
  assert (Hc : mkState 1 1 ∉ cliff_states calm_3x3)
    by (apply (bool_decide_unpack _); vm_compute; exact I).
  split; [exact Hb|]. split; [exact Hg|]. split; [exact Hc|].
  exact (transition_probs_sum_to_one (fun _ => 1 # 2) 3 3 (1 # 10) (15 # 100)
           (mkState 1 1) ACTION_RIGHT Hb Hg Hc).
Defined.

Lemma goal_absorbing_witness :
  mkState 2 2 ∈ goal_states calm_3x3 /\
  transitions_at calm_3x3 (mkState 2 2) ACTION_UP =
    Ok [mkTransition (mkState 2 2) 1 0].
Proof.
  assert (Hg : mkState 2 2 ∈ goal_states calm_3x3)
    by (apply (bool_decide_unpack _); vm_compute; exact I).
  split; [exact Hg|].
  exact (goal_absorbing calm_3x3 (mkState 2 2) ACTION_UP Hg).
Defined.

Lemma states_enumeration_witness :
  0 <= 3 /\ 0 <= 4 /\
  Z.of_nat (length (states rough_3x4)) =
    3 * 4 - Z.of_nat (size (cliff_states rough_3x4)).
Proof.
  assert (H3 : 0 <= 3) by lia. assert (H4 : 0 <= 4) by lia.
  split; [exact H3|]. split; [exact H4|].
  exact (proj1 (states_enumeration (fun _ => 0%Q) 3 4 (1 # 10) (15 # 100)
                  H3 H4)).
Defined.

Lemma target_state_clamped_in_bounds_witness :
  in_bounds calm_3x3 (mkState 0 2) /\
  target_state calm_3x3 (mkState 0 2) ACTION_RIGHT =
    clamped_move calm_3x3 (mkState 0 2) ACTION_RIGHT /\
  in_bounds calm_3x3 (target_state calm_3x3 (mkState 0 2) ACTION_RIGHT).
Proof.
  assert (Hb : in_bounds calm_3x3 (mkState 0 2))
    by (unfold in_bounds; simpl; lia).
  split; [exact Hb|].
  exact (target_state_clamped_in_bounds calm_3x3 (mkState 0 2) ACTION_RIGHT Hb).
Defined.

Lemma scenario_5x5_witness :
  unit_draws (fun _ => 1 # 2) /\
  transitions_at (new_world (fun _ => 1 # 2) 5 5 (1 # 10) (15 # 100))
    (mkState 2 2) ACTION_UP =
  Ok (map (spec_outcome (new_world (fun _ => 1 # 2) 5 5 (1 # 10) (15 # 100))
             (mkState 4 4) (mkState 2 2) ACTION_UP) ACTIONS).
Proof.
  split; [exact half_unit_draws|].
  exact (proj1 (scenario_5x5 (fun _ => 1 # 2) (15 # 100) half_unit_draws)).
Defined.

Lemma destinations_not_cliffs_witness :
  in_bounds rough_5x5 (mkState 2 2) /\
  exists l, transitions_at rough_5x5 (mkState 2 2) ACTION_UP = Ok l /\
            forall t, t ∈ l -> state t ∉ cliff_states rough_5x5.
Proof.
  assert (Hb : in_bounds rough_5x5 (mkState 2 2))
    by (unfold in_bounds; simpl; lia).
  split; [exact Hb|].
  exact (destinations_not_cliffs (fun _ => 0%Q) 5 5 (1 # 10) (15 # 100)
           (mkState 2 2) ACTION_UP Hb).
Defined.

(** * Further properties of the grid world *)

(** ** Moves *)

(** X1. From a state inside the grid, a move that changes the state is undone
    by the opposite action. *)
Theorem target_state_undo (gw : GridWorld) (s : State) (a : Action) :
  in_bounds gw s ->
  target_state gw s a <> s ->
  target_state gw (target_state gw s a) (opposite a) = s.
Proof.
  intros [Hy Hx] Hmove. destruct s as [sy sx]. simpl in Hy, Hx.
  destruct a; unfold target_state in *; simpl in *; f_equal;
    try lia.
  - destruct (decide (sx = 0)) as [->|]; [by exfalso; apply Hmove|lia].
  - destruct (decide (sx = width gw - 1)) as [->|]; [|lia].
    exfalso; apply Hmove. f_equal. lia.
  - destruct (decide (sy = 0)) as [->|]; [by exfalso; apply Hmove|lia].
  - destruct (decide (sy = height gw - 1)) as [->|]; [|lia].
    exfalso; apply Hmove. f_equal. lia.
Qed.

(** X2. From a state inside the grid, a move leaves the state where it is
    exactly when the state lies on the edge the action moves towards. *)
Theorem target_state_blocked_iff (gw : GridWorld) (s : State) (a : Action) :
  in_bounds gw s ->
  (target_state gw s a = s <-> at_edge gw s a).
Proof.
  intros [Hy Hx]. destruct s as [sy sx]. simpl in Hy, Hx.
  destruct a; unfold target_state, at_edge; simpl; split.
  - intros H. injection H. lia.
  - intros ->. reflexivity.
  - intros H. injection H. lia.
  - intros ->. f_equal. lia.
  - intros H. injection H. lia.
  - intros ->. reflexivity.
  - intros H. injection H. lia.
  - intros ->. f_equal. lia.
Qed.

(** ** How many entries a transition list has *)

Lemma Qneqb_false_iff (a b : Q) : Qneqb a b = false <-> (a == b)%Q.
Proof.
  split; [apply Qneqb_false|]. intros H. unfold Qneqb.
  apply Qeq_bool_iff in H. by rewrite H.
Qed.

Lemma Qneqb_true_iff (a b : Q) : Qneqb a b = true <-> ~ (a == b)%Q.
Proof.
  split; [apply Qneqb_true|]. intros H.
  destruct (Qneqb a b) eqn:E; [done|]. by apply Qneqb_false in E.
Qed.

Lemma listed_no_noise (gw : GridWorld) (a : Action) :
  (random_action_p gw == 0)%Q -> listed gw a = [a].
Proof.
  intros Hp. unfold listed, executed_prob.
  assert (H1 : Qneqb (1 - random_action_p gw) 0 = true)
    by (apply Qneqb_true_iff; lra).
  assert (H3 : Qneqb (random_action_p gw / 3) 0 = false)
    by (apply Qneqb_false_iff; rewrite Hp; reflexivity).
  destruct a; simpl; by rewrite H1, H3.
Qed.

Lemma listed_all_noise (gw : GridWorld) (a : Action) :
  (random_action_p gw == 1)%Q ->
  listed gw a = List.filter (fun a' => negb (bool_decide (a' = a))) ACTIONS.
Proof.
  intros Hp. unfold listed, executed_prob.
  assert (H1 : Qneqb (1 - random_action_p gw) 0 = false)
    by (apply Qneqb_false_iff; lra).
  assert (H3 : Qneqb (random_action_p gw / 3) 0 = true).
  { apply Qneqb_true_iff. rewrite Hp. discriminate. }
  destruct a; simpl; by rewrite H1, H3.
Qed.

Lemma listed_some_noise (gw : GridWorld) (a : Action) :
  ~ (random_action_p gw == 0)%Q -> ~ (random_action_p gw == 1)%Q ->
  listed gw a = ACTIONS.
Proof.
  intros H0 H1. unfold listed, executed_prob.
  assert (E1 : Qneqb (1 - random_action_p gw) 0 = true)
    by (apply Qneqb_true_iff; lra).
  assert (E3 : Qneqb (random_action_p gw / 3) 0 = true).
  { apply Qneqb_true_iff. intros H. apply H0.
    assert (Hd : (random_action_p gw / 3 == random_action_p gw * (1 # 3))%Q)
      by (field; discriminate).
    rewrite Hd in H. lra. }
  destruct a; simpl; by rewrite E1, E3.
Qed.

Lemma new_world_transitions_at_general draws h w rp lp (s : State)
    (a : Action) :
  let gw := new_world draws h w rp lp in
  s ∉ goal_states gw ->
  transitions_at gw s a =
  Ok (map (spec_outcome gw (goal_of gw) s a) (listed gw a)).
Proof.
  intros gw Hs. apply transitions_at_general;
    [apply new_world_next_goal | done | apply new_world_not_risky].
Qed.

(** X3. Without action noise ([random_action_p] equal to 0) the list of a
    state that is not a goal has a single entry, that of the nominal action
    itself, with probability 1: reward -40 and the goal as destination when
    the nominal move lands on a cliff, reward -1 and the target otherwise. *)
Theorem transitions_no_noise draws h w rp lp (s : State) (a : Action) :
  let gw := new_world draws h w rp lp in
  (rp == 0)%Q ->
  s ∉ goal_states gw ->
  exists t, transitions_at gw s a = Ok [t] /\
            t = spec_outcome gw (goal_of gw) s a a /\ (prob t == 1)%Q.
Proof.
  intros gw Hp Hs.
  pose proof (new_world_transitions_at_general draws h w rp lp s a Hs) as Ht.
  cbv zeta in Ht. fold gw in Ht. rewrite (listed_no_noise gw a Hp) in Ht.
  eexists. split; [exact Ht|]. split; [reflexivity|].
  - rewrite prob_spec_outcome. unfold executed_prob.
    rewrite bool_decide_eq_true_2 by done.
    change (random_action_p gw) with rp. lra.
Qed.

(** X4. With [random_action_p] equal to 1 the nominal action is never
    executed: the list of a state that is not a goal has exactly three
    entries, those of the three other actions in the order of [ACTIONS],
    each with probability 1/3. *)
Theorem transitions_all_noise draws h w rp lp (s : State) (a : Action) :
  let gw := new_world draws h w rp lp in
  (rp == 1)%Q ->
  s ∉ goal_states gw ->
  exists l, transitions_at gw s a = Ok l /\
    l = map (spec_outcome gw (goal_of gw) s a)
          (List.filter (fun a' => negb (bool_decide (a' = a))) ACTIONS) /\
    length l = 3%nat /\
    Forall (fun t => (prob t == 1 # 3)%Q) l.
Proof.
  intros gw Hp Hs.
  pose proof (new_world_transitions_at_general draws h w rp lp s a Hs) as Hl.
  cbv zeta in Hl. fold gw in Hl. rewrite (listed_all_noise gw a Hp) in Hl.
  eexists. split; [exact Hl|]. split; [reflexivity|]. split.
  - by destruct a.
  - apply Forall_forall. intros t Ht.
    apply elem_of_map in Ht as (a' & -> & Ha').
    apply list_elem_of_In, filter_In in Ha' as [_ Ha'].
    rewrite prob_spec_outcome. unfold executed_prob.
    apply negb_true_iff in Ha'. rewrite Ha'.
    change (random_action_p gw) with rp. rewrite Hp. reflexivity.
Qed.

(** X6. When [random_action_p] lies in [[0, 1]], every entry of every
    transition list of a constructed model has a probability in [(0, 1]]. *)
Theorem transition_probs_valid draws h w rp lp (s : State) (a : Action) :
  let gw := new_world draws h w rp lp in
  (0 <= rp)%Q -> (rp <= 1)%Q ->
  exists l, transitions_at gw s a = Ok l /\
            forall t, t ∈ l -> (0 < prob t)%Q /\ (prob t <= 1)%Q.
Proof.
  intros gw H0 H1. eexists. split; [apply new_world_transitions_at|].
  fold gw. intros t Ht. case_bool_decide as Hg.
  - apply list_elem_of_singleton in Ht as ->. simpl. split; [reflexivity|discriminate].
  - apply elem_of_map in Ht as (a' & -> & Ha').
    apply elem_of_listed in Ha'. rewrite prob_spec_outcome in *.
    unfold executed_prob in *. change (random_action_p gw) with rp in *.
    destruct (bool_decide (a' = a)).
    + split; lra.
    + assert (Hd : (rp / 3 == rp * (1 # 3))%Q) by (field; discriminate).
      rewrite Hd in *. split; lra.
Qed.

(** ** The state space is closed under transitions *)

Lemma elem_of_states (gw : GridWorld) (s : State) :
  s ∈ states gw <-> in_bounds gw s /\ s ∉ cliff_states gw.
Proof.
  rewrite states_filter, list_elem_of_filter, elem_of_grid.
  unfold in_bounds. tauto.
Qed.

Lemma goal_of_in_bounds (gw : GridWorld) :
  1 <= height gw -> 1 <= width gw -> in_bounds gw (goal_of gw).
Proof. intros Hh Hw. unfold in_bounds, goal_of. simpl. lia. Qed.

Lemma transitions_stay_in_states_aux draws h w rp lp (s : State) (a : Action) :
  let gw := new_world draws h w rp lp in
  s ∈ states gw ->
  exists l, transitions_at gw s a = Ok l /\
            forall t, t ∈ l -> state t ∈ states gw.
Proof.
  intros gw Hs. apply elem_of_states in Hs as [Hb Hc].
  assert (Hgb : in_bounds gw (goal_of gw)).
  { destruct Hb as [Hy Hx]. apply goal_of_in_bounds; simpl in *; lia. }
  eexists. split; [apply new_world_transitions_at|].
  fold gw. intros t Ht. apply elem_of_states. case_bool_decide as Hg.
  - apply list_elem_of_singleton in Ht as ->. by split.
  - apply elem_of_map in Ht as (a' & -> & _). rewrite state_spec_outcome.
    case_bool_decide as Hcl.
    + split; [done|]. apply (new_world_goal_not_cliff draws h w rp lp).
    + split; [by apply target_state_in_bounds|done].
Qed.

(** X7. In a constructed model, every transition out of a state that
    [states()] yields leads to a state that [states()] yields: destinations
    stay inside the grid and off the cliffs, for every action. *)
Theorem transitions_stay_in_states draws h w rp lp (s : State) (a : Action) :
  let gw := new_world draws h w rp lp in
  s ∈ states gw ->
  exists l, transitions_at gw s a = Ok l /\
            forall t, t ∈ l -> state t ∈ states gw.
Proof. apply transitions_stay_in_states_aux. Qed.

(** X8. In a model constructed with [height >= 1] and [width >= 1], the
    initial state and the goal state are among the states [states()]
    yields. *)
Theorem start_and_goal_enumerated draws h w rp lp :
  let gw := new_world draws h w rp lp in
  1 <= h -> 1 <= w ->
  initial_state gw ∈ states gw /\ goal_of gw ∈ states gw.
Proof.
  intros gw Hh Hw. split; apply elem_of_states; split.
  - unfold in_bounds. simpl. lia.
  - intros H. apply (new_world_cliff_not_skipped draws h w rp lp) in H as [H _].
    by apply H.
  - by apply goal_of_in_bounds.
  - apply (new_world_goal_not_cliff draws h w rp lp).
Qed.

(** X9. The constructor accepts a height or a width that is zero or
    negative: the model it returns has no cliff and [states()] yields
    nothing, so that not even the initial state is a state of the grid. *)
Theorem degenerate_grid_is_empty draws h w rp lp :
  let gw := new_world draws h w rp lp in
  h <= 0 \/ w <= 0 ->
  cliff_states gw = ∅ /\ states gw = [] /\ initial_state gw ∉ states gw.
Proof.
  intros gw Hd.
  assert (Hnone : forall s, s ∉ states gw).
  { intros s Hs. apply elem_of_states in Hs as [[Hy Hx] _]. simpl in *. lia. }
  split; [|split].
  - apply elem_of_equiv_empty_L. intros s Hs.
    apply new_world_cliff_in_grid in Hs. lia.
  - by apply elem_of_nil_inv.
  - apply Hnone.
Qed.

(** ** Sampling *)

Lemma listed_nonempty (gw : GridWorld) (a : Action) : listed gw a <> [].
Proof.
  destruct (Qeq_dec (random_action_p gw) 0) as [H0|H0].
  - by rewrite listed_no_noise.
  - destruct (Qeq_dec (random_action_p gw) 1) as [H1|H1].
    + rewrite listed_all_noise by done. by destruct a.
    + by rewrite listed_some_noise.
Qed.

Lemma sample_transition_elem choice (gw : GridWorld) (s : State) (a : Action)
    (l : list Transition) :
  index_choice choice ->
  transitions_at gw s a = Ok l -> l <> [] ->
  exists t, sample_transition choice gw s a = Ok t /\ t ∈ l.
Proof.
  intros Hc Hl Hne. unfold sample_transition. rewrite Hl. simpl.
  assert (Hlen : (0 < length l)%nat) by (destruct l; [done|simpl; lia]).
  destruct (lookup_lt_is_Some_2 l (choice (length l) (map prob l)))
    as [t Ht]; [by apply Hc|].
  rewrite Ht. exists t. split; [done|]. by eapply list_elem_of_lookup_2.
Qed.

Lemma new_world_transitions_nonempty draws h w rp lp (s : State) (a : Action) :
  let gw := new_world draws h w rp lp in
  (if bool_decide (s ∈ goal_states gw) then [mkTransition s 1 0]
   else map (spec_outcome gw (goal_of gw) s a) (listed gw a)) <> [].
Proof.
  intros gw. case_bool_decide; [done|].
  pose proof (listed_nonempty gw a) as Hne.
  destruct (listed gw a); [done|]. done.
Qed.

(** X10. In a constructed model with [random_action_p] in [[0, 1]], when the
    index drawn by [np.random.choice] is one of the list's, sampling from a
    state that [states()] yields returns one of the entries of
    [transitions(s)[a]], and its destination is again a state that
    [states()] yields. *)
Theorem sample_transition_stays_in_states choice draws h w rp lp (s : State)
    (a : Action) :
  let gw := new_world draws h w rp lp in
  index_choice choice ->
  (0 <= rp)%Q -> (rp <= 1)%Q ->
  s ∈ states gw ->
  exists t l, sample_transition choice gw s a = Ok t /\
              transitions_at gw s a = Ok l /\ t ∈ l /\
              state t ∈ states gw.
Proof.
  intros gw Hc _ _ Hs.
  destruct (transitions_stay_in_states_aux draws h w rp lp s a Hs)
    as (l & Hl & Hin).
  assert (Hne : l <> []).
  { pose proof (new_world_transitions_at draws h w rp lp s a) as Hl'.
    cbv zeta in Hl'. fold gw in Hl, Hl'. rewrite Hl in Hl'.
    injection Hl' as ->. apply new_world_transitions_nonempty. }
  destruct (sample_transition_elem choice gw s a l Hc Hl Hne) as (t & Ht & Htl).
  exists t, l. split; [done|]. split; [done|]. split; [done|]. by apply Hin.
Qed.

(** X11. Without action noise the sample does not depend on the index
    drawn: from a state that is not a goal, [sample_transition] returns the
    entry of the nominal action itself. *)
Theorem sample_transition_no_noise choice draws h w rp lp (s : State)
    (a : Action) :
  let gw := new_world draws h w rp lp in
  index_choice choice ->
  (rp == 0)%Q ->
  s ∉ goal_states gw ->
  sample_transition choice gw s a = Ok (spec_outcome gw (goal_of gw) s a a).
Proof.
  intros gw Hc Hp Hs.
  pose proof (new_world_transitions_at_general draws h w rp lp s a Hs) as Hl.
  cbv zeta in Hl. fold gw in Hl. rewrite (listed_no_noise gw a Hp) in Hl.
  unfold sample_transition. rewrite Hl. simpl.
  assert (Hi : (choice 1%nat [prob (spec_outcome gw (goal_of gw) s a a)] < 1)%nat)
    by (apply Hc; lia).
  destruct (choice _ _); [done|lia].
Qed.

(** ** More on the constructor *)

Lemma fold_cliff_step_count draws h w init gs (l : list State) :
  forall (n : nat) (C : gset State),
    fst (fold_left (cliff_step draws h w init gs) l (n, C)) =
    (n + length (filter (fun s => skipped init gs s = false) l))%nat.
Proof.
  induction l as [|c l IH]; intros n C; simpl; [lia|].
  rewrite cliff_step_eq, filter_cons. simpl.
  destruct (skipped init gs c) eqn:Hk.
  - rewrite IH. case_decide; [done|lia].
  - rewrite IH. case_decide; [simpl; lia|done].
Qed.

Lemma length_cells h w : length (cells h w) = (Z.to_nat w * Z.to_nat h)%nat.
Proof.
  unfold cells. rewrite (length_flat_map_const _ _ (Z.to_nat h)).
  - by rewrite length_range.
  - intros xx. by rewrite length_map, length_range.
Qed.

Lemma skipped_true_iff (init g s : State) :
  skipped init {[ g ]} s <> false <-> s = init \/ s = g.
Proof.
  unfold skipped. split.
  - intros H. destruct (bool_decide (s = init)) eqn:E1.
    + left. by apply bool_decide_eq_true in E1.
    + destruct (bool_decide (s ∈ ({[ g ]} : gset State))) eqn:E2; [|done].
      right. apply bool_decide_eq_true in E2. by apply elem_of_singleton in E2.
  - intros [->| ->].
    + by rewrite bool_decide_eq_true_2.
    + rewrite (bool_decide_eq_true_2 (g ∈ ({[ g ]} : gset State)))
        by (by apply elem_of_singleton).
      by rewrite orb_true_r.
Qed.

Lemma length_skipped_cells h w :
  1 <= h -> 1 <= w ->
  length (filter (fun s => skipped (mkState (h - 1) 0)
                             {[ mkState (h - 1) (w - 1) ]} s <> false)
            (cells h w)) =
  if bool_decide (w = 1) then 1%nat else 2%nat.
Proof.
  intros Hh Hw.
  set (l := filter _ (cells h w)).
  assert (Hl : NoDup l) by apply NoDup_filter, NoDup_cells.
  assert (Hin : forall s, s ∈ l <->
            s = mkState (h - 1) 0 \/ s = mkState (h - 1) (w - 1)).
  { intros s. unfold l. rewrite list_elem_of_filter, skipped_true_iff,
      elem_of_cells. split; [tauto|].
    intros [->| ->]; simpl; split; auto; lia. }
  case_bool_decide as Hw1.
  - subst w. transitivity (length [mkState (h - 1) 0]); [|done].
    apply Permutation_length, NoDup_Permutation; [done|apply NoDup_singleton|].
    intros s. rewrite Hin, list_elem_of_singleton. simpl. tauto.
  - transitivity (length [mkState (h - 1) 0; mkState (h - 1) (w - 1)]); [|done].
    apply Permutation_length, NoDup_Permutation; [done| |].
    + apply NoDup_cons. split; [|apply NoDup_singleton].
      rewrite list_elem_of_singleton. intros H. injection H. lia.
    + intros s. rewrite Hin, elem_of_cons, list_elem_of_singleton. tauto.
Qed.

(** X12. A construction with [height >= 1] and [width >= 1] takes a number
    of random draws that does not depend on their values: none when
    [height == 1], and otherwise one per cell of the grid except the initial
    state and the goal state (which are one and the same cell when
    [width == 1]). *)
Theorem init_draws_taken draws h w rp lp (n : nat) :
  1 <= h -> 1 <= w ->
  Z.of_nat (snd (init draws h w rp lp n)) =
  Z.of_nat n +
  (if bool_decide (h = 1) then 0
   else h * w - (if bool_decide (w = 1) then 1 else 2)).
Proof.
  intros Hh Hw. unfold init. simpl. case_bool_decide as Hh1.
  - rewrite bool_decide_eq_false_2 by done.
    rewrite cliff_loop_cells, fold_cliff_step_count.
    pose proof (length_filter_split
      (fun s => skipped (mkState (h - 1) 0) {[ mkState (h - 1) (w - 1) ]} s
                = false) (cells h w)) as Hsplit.
    rewrite length_cells in Hsplit.
    pose proof (length_skipped_cells h w Hh Hw) as Hskip.
    case_bool_decide; nia.
  - rewrite bool_decide_eq_true_2 by lia. simpl. lia.
Qed.

Lemma new_world_no_cliff_if draws h w rp lp :
  (forall s, 0 <= y s < h -> 0 <= x s < w ->
     Qltb (draw_of draws h w s) (p_cliff h w s) = false) ->
  cliff_states (new_world draws h w rp lp) = ∅.
Proof.
  intros Hno. apply elem_of_equiv_empty_L. intros s Hs.
  apply new_world_cliff_elem in Hs as (_ & Hc & _ & Hq).
  apply elem_of_cells in Hc as [Hy Hx]. rewrite Hno in Hq; done.
Qed.

(** X13. With draws in [[0, 1)], a grid with fewer than five columns or
    fewer than three rows has no cliff at all. *)
Theorem small_grid_no_cliffs draws h w rp lp :
  unit_draws draws ->
  w <= 4 \/ h <= 2 ->
  cliff_states (new_world draws h w rp lp) = ∅.
Proof.
  intros Hd Hsmall. apply elem_of_equiv_empty_L. intros s Hs.
  apply (new_world_cliff_in_band draws h w rp lp s Hd) in Hs.
  unfold in_band in Hs. lia.
Qed.

Lemma p_cliff_le_tenth h w (s : State) :
  0 <= y s < h -> (p_cliff h w s <= 1 # 10)%Q.
Proof.
  intros Hy. unfold p_cliff.
  set (q := (inject_Z (y s) / inject_Z h)%Q).
  assert (Hh : (0 < inject_Z h)%Q).
  { change 0%Q with (inject_Z 0). rewrite <- Zlt_Qlt. lia. }
  assert (Hq0 : (0 <= q)%Q).
  { unfold q. apply Qle_shift_div_l; [done|]. rewrite Qmult_0_l.
    change 0%Q with (inject_Z 0). rewrite <- Zle_Qle. lia. }
  assert (Hq1 : (q <= 1)%Q).
  { unfold q. apply Qle_shift_div_r; [done|]. rewrite Qmult_1_l.
    rewrite <- Zle_Qle. lia. }
  assert (Hsq : (q ^ 2 == q * q)%Q) by (simpl; ring).
  assert (Hqq : (q * q <= 1)%Q) by nra.
  destruct (_ && _); rewrite Hsq; lra.
Qed.

(** X14. A draw of at least 0.1 never makes a cliff: when every draw is at
    least 0.1 the constructed model has no cliff, whatever its size. *)
Theorem high_draws_no_cliffs draws h w rp lp :
  (forall n, (1 # 10 <= draws n)%Q) ->
  cliff_states (new_world draws h w rp lp) = ∅.
Proof.
  intros Hd. apply new_world_no_cliff_if. intros s Hy _.
  destruct (Qltb _ _) eqn:E; [|done]. apply Qltb_spec in E.
  pose proof (p_cliff_le_tenth h w s Hy) as Hp.
  pose proof (Hd (draw_pos h w s)) as Hdraw. unfold draw_of in E. lra.
Qed.

(** X15. Inside the band of candidate cells the cliff probability depends
    on the row only and grows with it: a cell further down is at least as
    likely to be a cliff. *)
Theorem p_cliff_grows_with_row h w (s1 s2 : State) :
  in_band h w s1 -> in_band h w s2 ->
  y s1 <= y s2 ->
  (p_cliff h w s1 <= p_cliff h w s2)%Q.
Proof.
  intros Hb1 Hb2 Hy.
  rewrite (p_cliff_in_band h w s1 Hb1), (p_cliff_in_band h w s2 Hb2).
  destruct Hb1 as [_ Hy1], Hb2 as [_ Hy2].
  assert (Hh : (0 < inject_Z h)%Q).
  { change 0%Q with (inject_Z 0). rewrite <- Zlt_Qlt. lia. }
  set (q1 := (inject_Z (y s1) / inject_Z h)%Q).
  set (q2 := (inject_Z (y s2) / inject_Z h)%Q).
  assert (H1 : (0 <= q1)%Q).
  { unfold q1. apply Qle_shift_div_l; [done|]. rewrite Qmult_0_l.
    change 0%Q with (inject_Z 0). rewrite <- Zle_Qle. lia. }
  assert (H12 : (q1 <= q2)%Q).
  { unfold q1, q2. apply Qmult_le_compat_r.
    - rewrite <- Zle_Qle. lia.
    - apply Qlt_le_weak, Qinv_lt_0_compat, Hh. }
  assert (Hs1 : (q1 ^ 2 == q1 * q1)%Q) by (simpl; ring).
  assert (Hs2 : (q2 ^ 2 == q2 * q2)%Q) by (simpl; ring).
  rewrite Hs1, Hs2. nra.
Qed.

Lemma walk_right_bottom_row (gw : GridWorld) (k : nat) :
  Z.of_nat k <= width gw - 1 ->
  walk gw ACTION_RIGHT k (mkState (height gw - 1) 0) =
  mkState (height gw - 1) (Z.of_nat k).
Proof.
  induction k as [|k IH]; intros Hk; [done|].
  change (walk gw ACTION_RIGHT (S k) (mkState (height gw - 1) 0))
    with (target_state gw
            (walk gw ACTION_RIGHT k (mkState (height gw - 1) 0)) ACTION_RIGHT).
  rewrite IH by lia. unfold target_state. simpl. f_equal. lia.
Qed.

(** X16. With draws in [[0, 1)], in a model with [height >= 1] and
    [width >= 1] the bottom row is free of cliffs and leads to the goal:
    [k] moves RIGHT from the initial state reach the cell [(height-1, k)],
    which is not a cliff, and [width-1] such moves reach the goal state. *)
Theorem bottom_row_reaches_goal draws h w rp lp (k : nat) :
  let gw := new_world draws h w rp lp in
  unit_draws draws ->
  1 <= h -> 1 <= w ->
  Z.of_nat k <= w - 1 ->
  walk gw ACTION_RIGHT k (initial_state gw) = mkState (h - 1) (Z.of_nat k) /\
  (walk gw ACTION_RIGHT k (initial_state gw) ∉ cliff_states gw) /\
  walk gw ACTION_RIGHT (Z.to_nat (w - 1)) (initial_state gw) = goal_of gw.
Proof.
  intros gw Hd Hh Hw Hk.
  assert (Hwalk : forall j : nat, Z.of_nat j <= w - 1 ->
            walk gw ACTION_RIGHT j (initial_state gw) =
            mkState (h - 1) (Z.of_nat j)).
  { intros j Hj. apply (walk_right_bottom_row gw j). exact Hj. }
  split; [by apply Hwalk|]. split.
  - rewrite Hwalk by done. apply unit_draws_off_band; [done|].
    unfold in_band. simpl. lia.
  - rewrite Hwalk by lia. unfold goal_of. simpl. f_equal. lia.
Qed.

(** * The square loss of [pennylane-qnn-example.py] *)

Lemma sq_fold_proper (l : list (Q * Q)) (q1 q2 : Q) :
  (q1 == q2)%Q ->
  (fold_left (fun loss lp => loss + (fst lp - snd lp) ^ 2) l q1 ==
   fold_left (fun loss lp => loss + (fst lp - snd lp) ^ 2) l q2)%Q.
Proof.
  revert q1 q2. induction l as [|lp l IH]; intros q1 q2 H; simpl; [done|].
  apply IH. by rewrite H.
Qed.

Lemma sq_fold_ge (l : list (Q * Q)) (q : Q) :
  (q <= fold_left (fun loss lp => loss + (fst lp - snd lp) ^ 2) l q)%Q.
Proof.
  revert q. induction l as [|lp l IH]; intros q; simpl; [lra|].
  apply Qle_trans with (q + (fst lp - snd lp) ^ 2)%Q; [|apply IH].
  set (d := (fst lp - snd lp)%Q).
  assert (H : (d ^ 2 == d * d)%Q) by (simpl; ring).
  assert (Hd : (0 <= d * d)%Q) by nra.
  rewrite H. lra.
Qed.


Lemma combine_app_r_long {A B} (l : list A) (p e : list B) :
  (length l <= length p)%nat -> combine l (p ++ e) = combine l p.
Proof.
  revert p. induction l as [|a l IH]; intros p Hlen; [done|].
  destruct p as [|b p]; simpl in *; [lia|]. f_equal. apply IH. lia.
Qed.

Lemma length_pos_Q (A : Type) (l : list A) :
  l <> [] -> (0 < inject_Z (Z.of_nat (length l)))%Q.
Proof.
  intros Hne. change 0%Q with (inject_Z 0). rewrite <- Zlt_Qlt.
  destruct l; [done|simpl; lia].
Qed.

Lemma square_loss_some (labels predictions : list Q) :
  labels <> [] ->
  square_loss labels predictions =
  inl (fold_left (fun loss lp => loss + (fst lp - snd lp) ^ 2)
         (combine labels predictions) 0
       / inject_Z (Z.of_nat (length labels)))%Q.
Proof. intros Hne. unfold square_loss. by destruct labels. Qed.

(** X19. A loss that [square_loss] returns is never negative. *)
Theorem square_loss_nonneg (labels predictions : list Q) (v : Q) :
  square_loss labels predictions = inl v -> (0 <= v)%Q.
Proof.
  intros H. destruct (decide (labels = [])) as [->|Hne]; [done|].
  rewrite square_loss_some in H by done. injection H as <-.
  apply Qle_shift_div_l; [by apply length_pos_Q|].
  rewrite Qmult_0_l. apply sq_fold_ge.
Qed.



(** * The circuit of [pennylane-qnn-example.py] *)

Lemma layer_long {R} (zero : R) (v : list R) :
  (14 <= length v)%nat ->
  snd (layer zero v) = Ok tt /\
  length (fst (layer zero v)) = 12%nat /\
  Forall (fun c => Forall (fun w => w = 0 \/ w = 1) (call_wires c))
    (fst (layer zero v)) /\
  Forall (fun c => c <> ExpvalX 0) (fst (layer zero v)).
Proof.
  intros Hlen. do 14 (destruct v as [|? v]; [simpl in Hlen; lia|]).
  split; [reflexivity|]. split; [reflexivity|].
  split; simpl; repeat (apply Forall_cons_2 || apply Forall_nil_2);
    simpl; auto; discriminate.
Qed.

Lemma layer_short {R} (zero : R) (v : list R) :
  (length v < 14)%nat ->
  snd (layer zero v) = Raise IndexError /\
  (length (fst (layer zero v)) < 12)%nat /\
  Forall (fun c => c <> ExpvalX 0) (fst (layer zero v)).
Proof.
  intros Hlen.
  do 14 (destruct v as [|? v];
         [split; [reflexivity|]; split; [simpl; lia|];
          simpl; repeat (apply Forall_cons_2 || apply Forall_nil_2);
          discriminate|]).
  simpl in Hlen. lia.
Qed.

(** X23. [layer(v)] raises [IndexError] exactly when [v] has fewer than 14
    entries, having made fewer than its 12 library calls by then; with 14
    entries or more it makes exactly 12 calls, all on wires 0 and 1, and
    ignores the entries beyond the fourteenth. *)
Theorem layer_needs_14_parameters {R} (zero : R) (v : list R) :
  (snd (layer zero v) = Raise IndexError <-> (length v < 14)%nat) /\
  ((length v < 14)%nat -> (length (fst (layer zero v)) < 12)%nat) /\
  ((14 <= length v)%nat ->
   snd (layer zero v) = Ok tt /\
   length (fst (layer zero v)) = 12%nat /\
   Forall (fun c => Forall (fun w => w = 0 \/ w = 1) (call_wires c))
     (fst (layer zero v)) /\
   layer zero v = layer zero (take 14 v)).
Proof.
  split; [|split].
  - split.
    + intros H. destruct (decide (length v < 14)%nat) as [|Hn]; [done|].
      destruct (layer_long zero v) as [Hok _]; [lia|]. congruence.
    + intros H. by apply layer_short.
  - intros H. by apply layer_short.
  - intros H. destruct (layer_long zero v H) as (H1 & H2 & H3 & _).
    split; [done|]. split; [done|]. split; [done|].
    do 14 (destruct v as [|? v]; [simpl in H; lia|]). reflexivity.
Qed.

Lemma layers_long {R} (zero : R) (var : list (list R)) :
  Forall (fun v => (14 <= length v)%nat) var ->
  snd (layers zero var) = Ok tt /\
  length (fst (layers zero var)) = (12 * length var)%nat /\
  Forall (fun c => Forall (fun w => w = 0 \/ w = 1) (call_wires c))
    (fst (layers zero var)).
Proof.
  induction 1 as [|v var Hv _ (IH1 & IH2 & IH3)]; simpl.
  - split; [done|]. split; [done|]. constructor.
  - destruct (layer_long zero v Hv) as (H1 & H2 & H3 & _).
    unfold and_then. rewrite H1. simpl. split; [done|].
    split; [rewrite length_app; lia|]. by apply Forall_app.
Qed.

Lemma layers_short {R} (zero : R) (var : list (list R)) :
  Exists (fun v => (length v < 14)%nat) var ->
  snd (layers zero var) = Raise IndexError.
Proof.
  induction var as [|v var IH]; intros H; [by apply Exists_nil in H|].
  simpl. unfold and_then.
  destruct (decide (length v < 14)%nat) as [Hv|Hv].
  - destruct (layer_short zero v Hv) as [-> _]. done.
  - destruct (layer_long zero v) as [-> _]; [lia|]. simpl.
    apply IH. apply Exists_cons in H as [H|H]; [done|exact H].
Qed.

Lemma layers_no_measurement {R} (zero : R) (var : list (list R)) :
  Forall (fun c => c <> ExpvalX 0) (fst (layers zero var)).
Proof.
  induction var as [|v var IH]; simpl; [constructor|].
  assert (Hv : Forall (fun c => c <> ExpvalX 0) (fst (layer zero v))).
  { destruct (decide (length v < 14)%nat) as [Hv|Hv].
    - by apply layer_short.
    - apply layer_long. lia. }
  unfold and_then. destruct (snd (layer zero v)); simpl; [|done].
  by apply Forall_app.
Qed.

(** X24. When the input [x] has at least two entries and every row of [var]
    at least 14, [quantum_neural_net(var, x)] raises nothing and makes
    exactly [2 + 12 * len(var) + 1] library calls: the two displacements that
    encode [x[0]] and [x[1]] on wires 0 and 1, twelve calls per layer, and
    last the measurement on wire 0; no call acts on any other wire. *)
Theorem quantum_neural_net_calls {R} (zero : R) (var : list (list R))
    (x : list R) :
  (2 <= length x)%nat ->
  Forall (fun v => (14 <= length v)%nat) var ->
  exists x0 x1 body,
    x !! 0%nat = Some x0 /\ x !! 1%nat = Some x1 /\
    quantum_neural_net zero var x =
      (Displacement x0 zero 0 :: Displacement x1 zero 1 :: body ++ [ExpvalX 0],
       Ok tt) /\
    length body = (12 * length var)%nat /\
    Forall (fun c => Forall (fun w => w = 0 \/ w = 1) (call_wires c)) body.
Proof.
  intros Hx Hvar. destruct x as [|x0 [|x1 x]]; simpl in Hx; try lia.
  destruct (layers_long zero var Hvar) as (H1 & H2 & H3).
  exists x0, x1, (fst (layers zero var)).
  split; [done|]. split; [done|]. split; [|by split].
  unfold quantum_neural_net, and_then. simpl. rewrite H1. reflexivity.
Qed.

(** X25. When the input [x] has fewer than two entries, or some row of [var]
    fewer than 14, [quantum_neural_net(var, x)] raises [IndexError], and the
    measurement is not among the calls made before it. *)
Theorem quantum_neural_net_index_error {R} (zero : R) (var : list (list R))
    (x : list R) :
  (length x < 2)%nat \/ Exists (fun v => (length v < 14)%nat) var ->
  snd (quantum_neural_net zero var x) = Raise IndexError /\
  Forall (fun c => c <> ExpvalX 0) (fst (quantum_neural_net zero var x)).
Proof.
  intros Hbad. unfold quantum_neural_net.
  destruct x as [|x0 [|x1 x]].
  - split; [reflexivity|constructor].
  - split; [reflexivity|]. simpl. repeat constructor. discriminate.
  - destruct Hbad as [Hx|Hvar]; [simpl in Hx; lia|].
    pose proof (layers_short zero var Hvar) as Hs.
    pose proof (layers_no_measurement zero var) as Hm.
    unfold and_then. simpl. rewrite Hs. simpl. split; [done|].
    repeat (apply Forall_cons_2; [discriminate|]). exact Hm.
Qed.

(** ** The further properties at concrete inputs *)

Lemma first_index_choice : index_choice (fun _ _ => 0%nat).
Proof. intros n p H. exact H. Defined.

Lemma target_state_undo_witness :
  in_bounds calm_3x3 (mkState 1 1) /\
  target_state calm_3x3 (mkState 1 1) ACTION_LEFT <> mkState 1 1 /\
  target_state calm_3x3 (target_state calm_3x3 (mkState 1 1) ACTION_LEFT)
    (opposite ACTION_LEFT) = mkState 1 1.
Proof.
  assert (Hb : in_bounds calm_3x3 (mkState 1 1))
    by (unfold in_bounds; simpl; lia).
  assert (Hm : target_state calm_3x3 (mkState 1 1) ACTION_LEFT <> mkState 1 1)
    by discriminate.
  split; [exact Hb|]. split; [exact Hm|].
  exact (target_state_undo calm_3x3 (mkState 1 1) ACTION_LEFT Hb Hm).
Defined.

Lemma target_state_blocked_iff_witness :
  in_bounds calm_3x3 (mkState 0 2) /\
  (target_state calm_3x3 (mkState 0 2) ACTION_UP = mkState 0 2 <->
   at_edge calm_3x3 (mkState 0 2) ACTION_UP).
Proof.
  assert (Hb : in_bounds calm_3x3 (mkState 0 2))
    by (unfold in_bounds; simpl; lia).
  split; [exact Hb|].
  exact (target_state_blocked_iff calm_3x3 (mkState 0 2) ACTION_UP Hb).
Defined.

Lemma transitions_no_noise_witness :
  (0 == 0)%Q /\
  (mkState 1 1 ∉ goal_states (new_world (fun _ => 1 # 2) 3 3 0 (15 # 100))) /\
  exists t,
    transitions_at (new_world (fun _ => 1 # 2) 3 3 0 (15 # 100)) (mkState 1 1)
      ACTION_RIGHT = Ok [t] /\
    t = spec_outcome (new_world (fun _ => 1 # 2) 3 3 0 (15 # 100))
          (goal_of (new_world (fun _ => 1 # 2) 3 3 0 (15 # 100)))
          (mkState 1 1) ACTION_RIGHT ACTION_RIGHT /\
    (prob t == 1)%Q.
Proof.
  assert (Hp : (0 == 0)%Q) by reflexivity.
  assert (Hg : mkState 1 1 ∉
                 goal_states (new_world (fun _ => 1 # 2) 3 3 0 (15 # 100)))
    by (apply (bool_decide_unpack _); vm_compute; exact I).
  split; [exact Hp|]. split; [exact Hg|].
  exact (transitions_no_noise (fun _ => 1 # 2) 3 3 0 (15 # 100) (mkState 1 1)
           ACTION_RIGHT Hp Hg).
Defined.

Lemma transitions_all_noise_witness :
  (1 == 1)%Q /\
  (mkState 1 1 ∉ goal_states (new_world (fun _ => 1 # 2) 3 3 1 (15 # 100))) /\
  exists l,
    transitions_at (new_world (fun _ => 1 # 2) 3 3 1 (15 # 100)) (mkState 1 1)
      ACTION_RIGHT = Ok l /\
    length l = 3%nat.
Proof.
  assert (Hp : (1 == 1)%Q) by reflexivity.
  assert (Hg : mkState 1 1 ∉
                 goal_states (new_world (fun _ => 1 # 2) 3 3 1 (15 # 100)))
    by (apply (bool_decide_unpack _); vm_compute; exact I).
  split; [exact Hp|]. split; [exact Hg|].
  destruct (transitions_all_noise (fun _ => 1 # 2) 3 3 1 (15 # 100)
              (mkState 1 1) ACTION_RIGHT Hp Hg) as (l & Hl & _ & Hlen & _).
  exists l. split; [exact Hl|exact Hlen].
Defined.

Lemma transition_probs_valid_witness :
  (0 <= 1 # 10)%Q /\ (1 # 10 <= 1)%Q /\
  exists l, transitions_at rough_5x5 (mkState 2 2) ACTION_UP = Ok l /\
            forall t, t ∈ l -> (0 < prob t)%Q /\ (prob t <= 1)%Q.
Proof.
  assert (H0 : (0 <= 1 # 10)%Q) by (unfold Qle; simpl; lia).
  assert (H1 : (1 # 10 <= 1)%Q) by (unfold Qle; simpl; lia).
  split; [exact H0|]. split; [exact H1|].
  exact (transition_probs_valid (fun _ => 0%Q) 5 5 (1 # 10) (15 # 100)
           (mkState 2 2) ACTION_UP H0 H1).
Defined.

Lemma transitions_stay_in_states_witness :
  mkState 2 1 ∈ states rough_5x5 /\
  exists l, transitions_at rough_5x5 (mkState 2 1) ACTION_RIGHT = Ok l /\
            forall t, t ∈ l -> state t ∈ states rough_5x5.
Proof.
  assert (Hs : mkState 2 1 ∈ states rough_5x5)
    by (apply (bool_decide_unpack _); vm_compute; exact I).
  split; [exact Hs|].
  exact (transitions_stay_in_states (fun _ => 0%Q) 5 5 (1 # 10) (15 # 100)
           (mkState 2 1) ACTION_RIGHT Hs).
Defined.

Lemma start_and_goal_enumerated_witness :
  1 <= 5 /\ 1 <= 5 /\
  initial_state rough_5x5 ∈ states rough_5x5 /\
  goal_of rough_5x5 ∈ states rough_5x5.
Proof.
  assert (H5 : 1 <= 5) by lia.
  split; [exact H5|]. split; [exact H5|].
  exact (start_and_goal_enumerated (fun _ => 0%Q) 5 5 (1 # 10) (15 # 100)
           H5 H5).
Defined.

Lemma degenerate_grid_is_empty_witness :
  (0 <= 0 \/ 4 <= 0) /\
  states (new_world (fun _ => 0%Q) 0 4 (1 # 10) (15 # 100)) = [].
Proof.
  assert (Hd : 0 <= 0 \/ 4 <= 0) by (left; lia).
  split; [exact Hd|].
  exact (proj1 (proj2 (degenerate_grid_is_empty (fun _ => 0%Q) 0 4 (1 # 10)
                         (15 # 100) Hd))).
Defined.

Lemma sample_transition_stays_in_states_witness :
  index_choice (fun _ _ => 0%nat) /\
  (0 <= 1 # 10)%Q /\ (1 # 10 <= 1)%Q /\
  mkState 2 1 ∈ states rough_5x5 /\
  exists t l,
    sample_transition (fun _ _ => 0%nat) rough_5x5 (mkState 2 1) ACTION_RIGHT
      = Ok t /\
    transitions_at rough_5x5 (mkState 2 1) ACTION_RIGHT = Ok l /\ t ∈ l /\
    state t ∈ states rough_5x5.
Proof.
  assert (H0 : (0 <= 1 # 10)%Q) by (unfold Qle; simpl; lia).
  assert (H1 : (1 # 10 <= 1)%Q) by (unfold Qle; simpl; lia).
  assert (Hs : mkState 2 1 ∈ states rough_5x5)
    by (apply (bool_decide_unpack _); vm_compute; exact I).
  split; [exact first_index_choice|]. split; [exact H0|]. split; [exact H1|].
  split; [exact Hs|].
  exact (sample_transition_stays_in_states (fun _ _ => 0%nat) (fun _ => 0%Q)
           5 5 (1 # 10) (15 # 100) (mkState 2 1) ACTION_RIGHT
           first_index_choice H0 H1 Hs).
Defined.

Lemma sample_transition_no_noise_witness :
  index_choice (fun _ _ => 0%nat) /\ (0 == 0)%Q /\
  (mkState 1 1 ∉ goal_states (new_world (fun _ => 1 # 2) 3 3 0 (15 # 100))) /\
  sample_transition (fun _ _ => 0%nat)
    (new_world (fun _ => 1 # 2) 3 3 0 (15 # 100)) (mkState 1 1) ACTION_DOWN =
  Ok (spec_outcome (new_world (fun _ => 1 # 2) 3 3 0 (15 # 100))
        (goal_of (new_world (fun _ => 1 # 2) 3 3 0 (15 # 100)))
        (mkState 1 1) ACTION_DOWN ACTION_DOWN).
Proof.
  assert (Hp : (0 == 0)%Q) by reflexivity.
  assert (Hg : mkState 1 1 ∉
                 goal_states (new_world (fun _ => 1 # 2) 3 3 0 (15 # 100)))
    by (apply (bool_decide_unpack _); vm_compute; exact I).
  split; [exact first_index_choice|]. split; [exact Hp|]. split; [exact Hg|].
  exact (sample_transition_no_noise (fun _ _ => 0%nat) (fun _ => 1 # 2) 3 3 0
           (15 # 100) (mkState 1 1) ACTION_DOWN first_index_choice Hp Hg).
Defined.

Lemma init_draws_taken_witness :
  1 <= 3 /\ 1 <= 4 /\
  Z.of_nat (snd (init (fun _ => 0%Q) 3 4 (1 # 10) (15 # 100) 0)) =
  Z.of_nat 0 +
  (if bool_decide (3 = 1) then 0
   else 3 * 4 - (if bool_decide (4 = 1) then 1 else 2)).
Proof.
  assert (H3 : 1 <= 3) by lia. assert (H4 : 1 <= 4) by lia.
  split; [exact H3|]. split; [exact H4|].
  exact (init_draws_taken (fun _ => 0%Q) 3 4 (1 # 10) (15 # 100) 0 H3 H4).
Defined.

Lemma small_grid_no_cliffs_witness :
  unit_draws (fun _ => 1 # 2) /\ (4 <= 4 \/ 9 <= 2) /\
  cliff_states (new_world (fun _ => 1 # 2) 9 4 (1 # 10) (15 # 100)) = ∅.
Proof.
  assert (Hs : 4 <= 4 \/ 9 <= 2) by (left; lia).
  split; [exact half_unit_draws|]. split; [exact Hs|].
  exact (small_grid_no_cliffs (fun _ => 1 # 2) 9 4 (1 # 10) (15 # 100)
           half_unit_draws Hs).
Defined.

Lemma high_draws_no_cliffs_witness :
  (forall n : nat, (1 # 10 <= (fun _ => 1 # 2) n)%Q) /\
  cliff_states (new_world (fun _ => 1 # 2) 40 60 (1 # 10) (15 # 100)) = ∅.
Proof.
  assert (Hd : forall n : nat, (1 # 10 <= (fun _ => 1 # 2) n)%Q)
    by (intros n; unfold Qle; simpl; lia).
  split; [exact Hd|].
  exact (high_draws_no_cliffs (fun _ => 1 # 2) 40 60 (1 # 10) (15 # 100) Hd).
Defined.

Lemma p_cliff_grows_with_row_witness :
  in_band 5 6 (mkState 1 2) /\ in_band 5 6 (mkState 3 3) /\ 1 <= 3 /\
  (p_cliff 5 6 (mkState 1 2) <= p_cliff 5 6 (mkState 3 3))%Q.
Proof.
  assert (H1 : in_band 5 6 (mkState 1 2)) by (unfold in_band; simpl; lia).
  assert (H2 : in_band 5 6 (mkState 3 3)) by (unfold in_band; simpl; lia).
  assert (Hy : 1 <= 3) by lia.
  split; [exact H1|]. split; [exact H2|]. split; [exact Hy|].
  exact (p_cliff_grows_with_row 5 6 (mkState 1 2) (mkState 3 3) H1 H2 Hy).
Defined.

Lemma bottom_row_reaches_goal_witness :
  unit_draws (fun _ => 1 # 2) /\ 1 <= 3 /\ 1 <= 5 /\ Z.of_nat 2 <= 5 - 1 /\
  walk (new_world (fun _ => 1 # 2) 3 5 (1 # 10) (15 # 100)) ACTION_RIGHT 2
    (initial_state (new_world (fun _ => 1 # 2) 3 5 (1 # 10) (15 # 100))) =
  mkState (3 - 1) (Z.of_nat 2).
Proof.
  assert (H3 : 1 <= 3) by lia. assert (H5 : 1 <= 5) by lia.
  assert (Hk : Z.of_nat 2 <= 5 - 1) by (simpl; lia).
  split; [exact half_unit_draws|]. split; [exact H3|]. split; [exact H5|].
  split; [exact Hk|].
  exact (proj1 (bottom_row_reaches_goal (fun _ => 1 # 2) 3 5 (1 # 10)
                  (15 # 100) 2 half_unit_draws H3 H5 Hk)).
Defined.

Lemma square_loss_nonneg_witness :
  exists v, square_loss [1%Q; 0%Q] [(1 # 2)%Q; (1 # 2)%Q] = inl v /\ (0 <= v)%Q.
Proof.
  eexists. split; [reflexivity|].
  exact (square_loss_nonneg [1%Q; 0%Q] [(1 # 2)%Q; (1 # 2)%Q] _ eq_refl).
Defined.



Lemma quantum_neural_net_calls_witness :
  (2 <= length [5; 6])%nat /\
  Forall (fun v : list Z => (14 <= length v)%nat) [replicate 14 1] /\
  snd (quantum_neural_net 0 [replicate 14 1] [5; 6]) = Ok tt.
Proof.
  assert (Hx : (2 <= length [5; 6])%nat) by (simpl; lia).
  assert (Hv : Forall (fun v : list Z => (14 <= length v)%nat) [replicate 14 1])
    by (repeat constructor).
  split; [exact Hx|]. split; [exact Hv|].
  destruct (quantum_neural_net_calls 0 [replicate 14 1] [5; 6] Hx Hv)
    as (x0 & x1 & body & _ & _ & Hrun & _).
  rewrite Hrun. reflexivity.
Defined.

Lemma quantum_neural_net_index_error_witness :
  ((length [5] < 2)%nat \/
   Exists (fun v : list Z => (length v < 14)%nat) [replicate 14 1]) /\
  snd (quantum_neural_net 0 [replicate 14 1] [5]) = Raise IndexError.
Proof.
  assert (Hbad : (length [5] < 2)%nat \/
                 Exists (fun v : list Z => (length v < 14)%nat) [replicate 14 1])
    by (left; simpl; lia).
  split; [exact Hbad|].
  exact (proj1 (quantum_neural_net_index_error 0 [replicate 14 1] [5] Hbad)).
Defined.

(** * The tests that depend on rounding, over any arithmetic *)

(** ** [transitions] *)

Lemma fp_transitions_step_outcome {A : FP.Arith} (gw : FP.GridWorld A)
    (g s : State) (a a_ : Action) (acc : list (FP.Transition A)) :
  next_iter (FP.goal_states gw) = Ok g ->
  FP.transitions_step gw s a acc a_ =
  Ok (acc ++ (if FP.fnez A (FP.executed_prob gw a a_)
              then [FP.spec_outcome gw g s a a_] else [])).
Proof.
  intros Hg. unfold FP.transitions_step, FP.spec_outcome, FP.executed_prob.
  destruct (bool_decide (FP.target_state gw s a_ ∈ FP.cliff_states gw)); simpl.
  - rewrite Hg. simpl.
    destruct (FP.fnez A _); [reflexivity | by rewrite app_nil_r].
  - destruct (FP.fnez A _); [reflexivity | by rewrite app_nil_r].
Qed.

Lemma fp_for_each_transitions_step {A : FP.Arith} (gw : FP.GridWorld A)
    (g s : State) (a : Action) (l : list Action)
    (acc : list (FP.Transition A)) :
  next_iter (FP.goal_states gw) = Ok g ->
  for_each l (FP.transitions_step gw s a) acc =
  Ok (acc ++ map (FP.spec_outcome gw g s a)
                 (List.filter (fun a' => FP.fnez A (FP.executed_prob gw a a'))
                    l)).
Proof.
  intros Hg. revert acc. induction l as [|a_ l IH]; intros acc; simpl.
  - by rewrite app_nil_r.
  - rewrite (fp_transitions_step_outcome gw g) by exact Hg. simpl.
    rewrite IH. destruct (FP.fnez A _); simpl.
    + by rewrite <- app_assoc.
    + by rewrite app_nil_r.
Qed.

Lemma fp_transitions_at_general {A : FP.Arith} (gw : FP.GridWorld A)
    (g s : State) (a : Action) :
  next_iter (FP.goal_states gw) = Ok g ->
  s ∉ FP.goal_states gw ->
  s ∉ FP.risky_goal_states gw ->
  FP.transitions_at gw s a =
  Ok (map (FP.spec_outcome gw g s a) (FP.listed gw a)).
Proof.
  intros Hg Hgoal Hrisky. unfold FP.transitions_at, FP.transitions.
  rewrite bool_decide_eq_false_2 by exact Hgoal.
  rewrite bool_decide_eq_false_2 by exact Hrisky.
  rewrite (for_each_collect _
             (fun a => map (FP.spec_outcome gw g s a) (FP.listed gw a))
             ACTIONS []).
  - destruct a; reflexivity.
  - intros a0. by rewrite (fp_for_each_transitions_step gw g).
Qed.

Lemma fp_elem_of_listed {A : FP.Arith} (gw : FP.GridWorld A) (a a' : Action) :
  a' ∈ FP.listed gw a <-> FP.fnez A (FP.executed_prob gw a a') = true.
Proof.
  unfold FP.listed. rewrite list_elem_of_In, filter_In. split.
  - by intros [_ H].
  - intros H. split; [|done]. destruct a'; simpl; tauto.
Qed.

Lemma fp_new_world_next_goal (A : FP.Arith) draws h w rp lp :
  next_iter (FP.goal_states (FP.new_world A draws h w rp lp)) =
  Ok (FP.goal_of (FP.new_world A draws h w rp lp)).
Proof. apply next_iter_singleton. Qed.

(** C2. In a constructed model, whatever the float arithmetic, for every
    in-bounds state [s] that is neither a goal nor a risky goal and every
    nominal action [a], the list [transitions(s)[a]] has one entry per
    executed action [a'] whose computed probability is not zero, in the order
    of [ACTIONS]; the entry of [a'] has reward -40 and the goal state as
    destination when [target_state(s, a')] is a cliff state, and reward -1
    and [target_state(s, a')] as destination otherwise. *)
Theorem transitions_cliff_override (A : FP.Arith) draws h w rp lp (s : State)
    (a : Action) :
  let gw := FP.new_world A draws h w rp lp in
  FP.in_bounds gw s ->
  s ∉ FP.goal_states gw ->
  s ∉ FP.risky_goal_states gw ->
  FP.transitions_at gw s a =
    Ok (map (FP.spec_outcome gw (FP.goal_of gw) s a) (FP.listed gw a)) /\
  FP.goal_states gw = {[ FP.goal_of gw ]} /\
  (forall a', a' ∈ FP.listed gw a <->
              FP.fnez A (FP.executed_prob gw a a') = true) /\
  (forall a',
     (FP.target_state gw s a' ∈ FP.cliff_states gw ->
      FP.spec_outcome gw (FP.goal_of gw) s a a' =
      FP.mkTransition (FP.goal_of gw) (FP.executed_prob gw a a') (-40)) /\
     (FP.target_state gw s a' ∉ FP.cliff_states gw ->
      FP.spec_outcome gw (FP.goal_of gw) s a a' =
      FP.mkTransition (FP.target_state gw s a') (FP.executed_prob gw a a')
        (-1))).
Proof.
  intros gw _ Hgoal Hrisky. split; [|split; [|split]].
  - apply fp_transitions_at_general;
      [apply fp_new_world_next_goal | done | done].
  - reflexivity.
  - intros a'. apply fp_elem_of_listed.
  - intros a'. split; intros Hc; unfold FP.spec_outcome.
    + by rewrite bool_decide_eq_true_2.
    + by rewrite bool_decide_eq_false_2.
Qed.

(** X5. Whatever the float arithmetic, when the two probabilities the code
    computes, [1.0 - random_action_p] and [random_action_p / 3], both pass
    its test [p != 0], the list of a state that is not a goal has exactly
    four entries, one per executed action in the order of [ACTIONS], also
    when several of them have the same destination. *)
Theorem transitions_four_entries (A : FP.Arith) draws h w rp lp (s : State)
    (a : Action) :
  let gw := FP.new_world A draws h w rp lp in
  FP.fnez A (FP.fsub A (FP.one A) rp) = true ->
  FP.fnez A (FP.fdivz A rp 3) = true ->
  s ∉ FP.goal_states gw ->
  FP.transitions_at gw s a =
  Ok [FP.spec_outcome gw (FP.goal_of gw) s a ACTION_LEFT;
      FP.spec_outcome gw (FP.goal_of gw) s a ACTION_RIGHT;
      FP.spec_outcome gw (FP.goal_of gw) s a ACTION_UP;
      FP.spec_outcome gw (FP.goal_of gw) s a ACTION_DOWN].
Proof.
  intros gw H1 H3 Hs.
  rewrite (fp_transitions_at_general gw (FP.goal_of gw) s a);
    [|apply fp_new_world_next_goal | done | apply not_elem_of_empty].
  assert (Hl : FP.listed gw a = ACTIONS).
  { unfold FP.listed, FP.executed_prob.
    change (FP.random_action_p gw) with rp.
    destruct a; simpl; by rewrite H1, H3. }
  by rewrite Hl.
Qed.

(** ** The constructor *)

Lemma fp_cliff_loop_cells (A : FP.Arith) draws h w init gs st :
  FP.cliff_loop A draws h w init gs st =
  fold_left (FP.cliff_step A draws h w init gs) (cells h w) st.
Proof.
  unfold FP.cliff_loop, cells. rewrite fold_left_flat_map.
  apply fold_left_ext_eq. intros a b. by rewrite fold_left_map_pre.
Qed.

Lemma fp_cliff_step_eq (A : FP.Arith) draws h w init gs
    (st : nat * gset State) (c : State) :
  FP.cliff_step A draws h w init gs st c =
  if skipped init gs c then st
  else (S (fst st),
        if FP.flt A (draws (fst st)) (FP.p_cliff A h w c)
        then {[ c ]} ∪ snd st else snd st).
Proof.
  unfold FP.cliff_step, skipped.
  destruct (bool_decide (c = init) || bool_decide (c ∈ gs)); [done|].
  by destruct (FP.flt A _ _).
Qed.

Lemma fp_fold_cliff_step_elem (A : FP.Arith) draws h w init gs
    (l : list State) :
  NoDup l ->
  forall (n : nat) (C : gset State) (s : State),
    s ∈ snd (fold_left (FP.cliff_step A draws h w init gs) l (n, C)) <->
    s ∈ C \/
    (s ∈ l /\ skipped init gs s = false /\
     FP.flt A (draws (n + draw_index init gs l s)%nat) (FP.p_cliff A h w s)
     = true).
Proof.
  induction 1 as [|c l Hc Hl IH]; intros n C s; simpl.
  - split; [by left|]. intros [H|[H _]]; [done|]. by apply elem_of_nil in H.
  - rewrite fp_cliff_step_eq. simpl. destruct (skipped init gs c) eqn:Hskip.
    + rewrite IH. split.
      * intros [H|(Hin & Hs & Hd)]; [by left|right].
        split; [by apply elem_of_cons; right|]. split; [done|].
        rewrite bool_decide_eq_false_2 by (intros ->; done). exact Hd.
      * intros [H|(Hin & Hs & Hd)]; [by left|right].
        apply elem_of_cons in Hin as [->|Hin]; [congruence|].
        split; [done|]. split; [done|].
        rewrite bool_decide_eq_false_2 in Hd by (intros ->; done). exact Hd.
    + rewrite IH. split.
      * intros [H|(Hin & Hs & Hd)].
        -- destruct (FP.flt A (draws n) (FP.p_cliff A h w c)) eqn:Hq;
             [|by left].
           apply elem_of_union in H as [H|H]; [|by left].
           apply elem_of_singleton in H as ->. right.
           split; [by apply elem_of_cons; left|]. split; [done|].
           rewrite bool_decide_eq_true_2 by done. by rewrite Nat.add_0_r.
        -- right. split; [by apply elem_of_cons; right|]. split; [done|].
           rewrite bool_decide_eq_false_2 by (intros ->; done).
           replace (n + (1 + draw_index init gs l s))%nat
             with (S n + draw_index init gs l s)%nat by lia.
           exact Hd.
      * intros [H|(Hin & Hs & Hd)].
        -- left. destruct (FP.flt A _ _); [apply elem_of_union; by right|done].
        -- apply elem_of_cons in Hin as [->|Hin].
           ++ rewrite bool_decide_eq_true_2 in Hd by done.
              rewrite Nat.add_0_r in Hd. rewrite Hd. left.
              apply elem_of_union. left. by apply elem_of_singleton.
           ++ right. split; [done|]. split; [done|].
              rewrite bool_decide_eq_false_2 in Hd by (intros ->; done).
              replace (n + (1 + draw_index init gs l s))%nat
                with (S n + draw_index init gs l s)%nat in Hd by lia.
              exact Hd.
Qed.

Lemma fp_new_world_cliff_elem (A : FP.Arith) draws h w rp lp (s : State) :
  s ∈ FP.cliff_states (FP.new_world A draws h w rp lp) <->
  h <> 1 /\ s ∈ cells h w /\
  skipped (mkState (h - 1) 0) {[ mkState (h - 1) (w - 1) ]} s = false /\
  FP.flt A (draws (draw_pos h w s)) (FP.p_cliff A h w s) = true.
Proof.
  unfold FP.new_world, FP.init. simpl. case_bool_decide as Hh; simpl.
  - rewrite fp_cliff_loop_cells, fp_fold_cliff_step_elem by apply NoDup_cells.
    unfold draw_pos. simpl. split.
    + intros [H|H]; [by apply not_elem_of_empty in H|]. by split.
    + intros [_ H]. by right.
  - split; [intros H; by apply not_elem_of_empty in H|]. intros [H _]. done.
Qed.

Lemma fp_p_cliff_in_band (A : FP.Arith) h w (s : State) :
  in_band h w s ->
  FP.p_cliff A h w s = FP.fmulb A (FP.threshold A h s) true.
Proof.
  intros [Hx Hy]. unfold FP.p_cliff, FP.threshold.
  replace (1 <? x s) with true by (symmetry; apply Z.ltb_lt; lia).
  replace (0 <? y s) with true by (symmetry; apply Z.ltb_lt; lia).
  replace (x s <? w - 2) with true by (symmetry; apply Z.ltb_lt; lia).
  replace (y s <? h - 1) with true by (symmetry; apply Z.ltb_lt; lia).
  reflexivity.
Qed.

Lemma fp_p_cliff_off_band (A : FP.Arith) h w (s : State) :
  ~ in_band h w s ->
  FP.p_cliff A h w s = FP.fmulb A (FP.threshold A h s) false.
Proof.
  intros Hb. unfold FP.p_cliff, FP.threshold.
  destruct ((1 <? x s) && (0 <? y s) && (x s <? w - 2) && (y s <? h - 1))
    eqn:E; [|done].
  exfalso. apply Hb.
  apply andb_prop in E as [E E4]. apply andb_prop in E as [E E3].
  apply andb_prop in E as [E1 E2].
  apply Z.ltb_lt in E1, E2, E3, E4. unfold in_band. lia.
Qed.

(** C4, amended. Whatever the float arithmetic, provided a draw is never
    below a product with [False] and a product with [True] compares as the
    number itself: if [height == 1] there is no cliff. Otherwise a cell
    [(y, x)] with [2 <= x <= width-3] and [1 <= y <= height-2] is a cliff
    exactly when the draw made for it is below the value the code computes
    for [0.1 * (y/height)**2]; a cell outside that band, or equal to the
    start or a goal state, is never a cliff; and distinct cells of the band
    read distinct draws. *)
Theorem cliff_generation (A : FP.Arith) draws h w rp lp :
  FP.draws_not_below_masked A draws ->
  FP.true_factor_neutral A ->
  let gw := FP.new_world A draws h w rp lp in
  (h = 1 -> FP.cliff_states gw = ∅) /\
  (h <> 1 -> forall s,
     (in_band h w s ->
      (s ∈ FP.cliff_states gw <->
       FP.flt A (draws (draw_pos h w s)) (FP.threshold A h s) = true)) /\
     (~ in_band h w s \/ s = FP.initial_state gw \/ s ∈ FP.goal_states gw ->
      s ∉ FP.cliff_states gw)) /\
  (forall s1 s2, in_band h w s1 -> in_band h w s2 ->
     draw_pos h w s1 = draw_pos h w s2 -> s1 = s2).
Proof.
  intros Hmask Htrue gw. split; [|split].
  - intros ->. reflexivity.
  - intros Hh s. split.
    + intros Hb. unfold gw. rewrite fp_new_world_cliff_elem.
      destruct (in_band_kept h w s Hb) as [Hc Hk].
      rewrite (fp_p_cliff_in_band A h w s Hb), Htrue. tauto.
    + intros Hcase Hs. unfold gw in Hs.
      apply fp_new_world_cliff_elem in Hs as (_ & _ & Hk & Hq).
      destruct Hcase as [Hb|[Hi|Hg]].
      * rewrite (fp_p_cliff_off_band A h w s Hb), Hmask in Hq. done.
      * subst s. unfold skipped in Hk. simpl in Hk.
        rewrite bool_decide_eq_true_2 in Hk by done. done.
      * unfold skipped in Hk. simpl in Hg.
        rewrite (bool_decide_eq_true_2 _ Hg) in Hk.
        by rewrite orb_true_r in Hk.
  - intros s1 s2 H1 H2. unfold draw_pos.
    destruct (in_band_kept h w s1 H1), (in_band_kept h w s2 H2).
    by apply draw_index_inj; [apply NoDup_cells|..].
Qed.

(** The exact model of the first part is this one at the exact rationals. *)
Lemma exact_cliff_states draws h w rp lp :
  FP.cliff_states (FP.new_world FP.exact draws h w rp lp) =
  cliff_states (new_world draws h w rp lp).
Proof. reflexivity. Qed.

Lemma exact_transitions_at draws h w rp lp (s : State) (a : Action) :
  match FP.transitions_at (FP.new_world FP.exact draws h w rp lp) s a,
        transitions_at (new_world draws h w rp lp) s a with
  | Ok l, Ok l' =>
      map (fun t => (FP.state t, FP.prob t, FP.reward t)) l =
      map (fun t => (state t, prob t, reward t)) l'
  | Raise e, Raise e' => e = e'
  | _, _ => False
  end.
Proof.
  rewrite new_world_transitions_at.
  set (gw := new_world draws h w rp lp).
  set (fw := FP.new_world FP.exact draws h w rp lp).
  case_bool_decide as Hg.
  - unfold FP.transitions_at, FP.transitions.
    rewrite bool_decide_eq_true_2 by exact Hg. by destruct a.
  - rewrite (fp_transitions_at_general fw (FP.goal_of fw) s a);
      [|apply fp_new_world_next_goal | exact Hg | apply not_elem_of_empty].
    change (FP.listed fw a) with (listed gw a).
    rewrite !map_map. apply map_ext. intros a'.
    unfold FP.spec_outcome, spec_outcome.
    change (FP.target_state fw s a') with (target_state gw s a').
    change (FP.cliff_states fw) with (cliff_states gw).
    by destruct (bool_decide (target_state gw s a' ∈ cliff_states gw)).
Qed.

Lemma exact_true_factor_neutral : FP.true_factor_neutral FP.exact.
Proof.
  intros r v. simpl. apply Qltb_proper_r. ring.
Defined.

Lemma exact_draws_not_below_masked (draws : nat -> Q) :
  (forall n, (0 <= draws n)%Q) -> FP.draws_not_below_masked FP.exact draws.
Proof.
  intros Hd n v. simpl.
  rewrite (Qltb_proper_r _ (v * 0) 0) by ring.
  destruct (Qltb (draws n) 0) eqn:E; [|done].
  apply Qltb_spec in E. exfalso. by apply (Qlt_not_le _ _ E).
Defined.

(** ** Predictions in excess *)

(** X21. [zip] stops at the shorter list: predictions in excess of the
    labels do not change what [square_loss] returns. *)
Theorem square_loss_ignores_excess (labels predictions extra : list Q) :
  (length labels <= length predictions)%nat ->
  square_loss labels (predictions ++ extra) = square_loss labels predictions.
Proof.
  intros Hlen. unfold square_loss. by rewrite combine_app_r_long by lia.
Qed.

(** ** These theorems at concrete inputs *)

Lemma transitions_cliff_override_witness :
  FP.in_bounds (FP.new_world FP.exact (fun _ => 0%Q) 5 5 (1 # 10)%Q (15 # 100)%Q)
    (mkState 2 3) /\
  (mkState 2 3 ∉
   FP.goal_states
     (FP.new_world FP.exact (fun _ => 0%Q) 5 5 (1 # 10)%Q (15 # 100)%Q)) /\
  (mkState 2 3 ∉
   FP.risky_goal_states
     (FP.new_world FP.exact (fun _ => 0%Q) 5 5 (1 # 10)%Q (15 # 100)%Q)) /\
  FP.transitions_at
    (FP.new_world FP.exact (fun _ => 0%Q) 5 5 (1 # 10)%Q (15 # 100)%Q)
    (mkState 2 3) ACTION_LEFT =
  Ok [@FP.mkTransition FP.exact (mkState 4 4) (1 - (1 # 10))%Q (-40);
      @FP.mkTransition FP.exact (mkState 2 4) ((1 # 10) / inject_Z 3)%Q (-1);
      @FP.mkTransition FP.exact (mkState 1 3) ((1 # 10) / inject_Z 3)%Q (-1);
      @FP.mkTransition FP.exact (mkState 3 3) ((1 # 10) / inject_Z 3)%Q (-1)].
Proof.
  assert (Hb : FP.in_bounds
                 (FP.new_world FP.exact (fun _ => 0%Q) 5 5 (1 # 10)%Q
                    (15 # 100)%Q) (mkState 2 3))
    by (unfold FP.in_bounds; simpl; lia).
  assert (Hg : mkState 2 3 ∉
                 FP.goal_states
                   (FP.new_world FP.exact (fun _ => 0%Q) 5 5 (1 # 10)%Q
                      (15 # 100)%Q))
    by (apply (bool_decide_unpack _); vm_compute; exact I).
  assert (Hr : mkState 2 3 ∉
                 FP.risky_goal_states
                   (FP.new_world FP.exact (fun _ => 0%Q) 5 5 (1 # 10)%Q
                      (15 # 100)%Q))
    by (apply (bool_decide_unpack _); vm_compute; exact I).
  split; [exact Hb|]. split; [exact Hg|]. split; [exact Hr|].
  rewrite (proj1 (transitions_cliff_override FP.exact (fun _ => 0%Q) 5 5
                    (1 # 10)%Q (15 # 100)%Q (mkState 2 3) ACTION_LEFT
                    Hb Hg Hr)).
  vm_compute. reflexivity.
Defined.

Lemma transitions_four_entries_witness :
  FP.fnez FP.exact (FP.fsub FP.exact (FP.one FP.exact) (1 # 10)%Q) = true /\
  FP.fnez FP.exact (FP.fdivz FP.exact (1 # 10)%Q 3) = true /\
  (mkState 0 0 ∉
   FP.goal_states
     (FP.new_world FP.exact (fun _ => (1 # 2)%Q) 3 3 (1 # 10)%Q (15 # 100)%Q)) /\
  FP.transitions_at
    (FP.new_world FP.exact (fun _ => (1 # 2)%Q) 3 3 (1 # 10)%Q (15 # 100)%Q)
    (mkState 0 0) ACTION_LEFT =
  Ok [@FP.mkTransition FP.exact (mkState 0 0) (1 - (1 # 10))%Q (-1);
      @FP.mkTransition FP.exact (mkState 0 1) ((1 # 10) / inject_Z 3)%Q (-1);
      @FP.mkTransition FP.exact (mkState 0 0) ((1 # 10) / inject_Z 3)%Q (-1);
      @FP.mkTransition FP.exact (mkState 1 0) ((1 # 10) / inject_Z 3)%Q (-1)].
Proof.
  assert (H1 : FP.fnez FP.exact
                 (FP.fsub FP.exact (FP.one FP.exact) (1 # 10)%Q) = true)
    by reflexivity.
  assert (H3 : FP.fnez FP.exact (FP.fdivz FP.exact (1 # 10)%Q 3) = true)
    by reflexivity.
  assert (Hg : mkState 0 0 ∉
                 FP.goal_states
                   (FP.new_world FP.exact (fun _ => (1 # 2)%Q) 3 3 (1 # 10)%Q
                      (15 # 100)%Q))
    by (apply (bool_decide_unpack _); vm_compute; exact I).
  split; [exact H1|]. split; [exact H3|]. split; [exact Hg|].
  rewrite (transitions_four_entries FP.exact (fun _ => (1 # 2)%Q) 3 3
             (1 # 10)%Q (15 # 100)%Q (mkState 0 0) ACTION_LEFT H1 H3 Hg).
  vm_compute. reflexivity.
Defined.

Lemma cliff_generation_witness :
  FP.draws_not_below_masked FP.exact (fun _ => 0%Q) /\
  FP.true_factor_neutral FP.exact /\
  in_band 4 6 (mkState 2 3) /\
  FP.flt FP.exact 0%Q (FP.threshold FP.exact 4 (mkState 2 3)) = true /\
  mkState 2 3 ∈
    FP.cliff_states
      (FP.new_world FP.exact (fun _ => 0%Q) 4 6 (1 # 10)%Q (15 # 100)%Q).
Proof.
  assert (Hm : FP.draws_not_below_masked FP.exact (fun _ => 0%Q)).
  { apply exact_draws_not_below_masked. intros n. unfold Qle. simpl. lia. }
  assert (Hb : in_band 4 6 (mkState 2 3)) by (unfold in_band; simpl; lia).
  assert (Hh : 4 <> 1) by lia.
  assert (Hq : FP.flt FP.exact 0%Q (FP.threshold FP.exact 4 (mkState 2 3))
               = true) by reflexivity.
  split; [exact Hm|]. split; [exact exact_true_factor_neutral|].
  split; [exact Hb|]. split; [exact Hq|].
  exact (proj2 (proj1 (proj1 (proj2 (cliff_generation FP.exact (fun _ => 0%Q)
                                        4 6 (1 # 10)%Q (15 # 100)%Q Hm
                                        exact_true_factor_neutral))
                          Hh (mkState 2 3)) Hb) Hq).
Defined.

Lemma square_loss_ignores_excess_witness :
  (length [1%Q; 0%Q] <= length [(1 # 2)%Q; (1 # 3)%Q])%nat /\
  square_loss [1%Q; 0%Q] ([(1 # 2)%Q; (1 # 3)%Q] ++ [7%Q]) =
  square_loss [1%Q; 0%Q] [(1 # 2)%Q; (1 # 3)%Q].
Proof.
  assert (Hlen : (length [1%Q; 0%Q] <= length [(1 # 2)%Q; (1 # 3)%Q])%nat)
    by (simpl; lia).
  split; [exact Hlen|].
  exact (square_loss_ignores_excess [1%Q; 0%Q] [(1 # 2)%Q; (1 # 3)%Q] [7%Q]
           Hlen).
Defined.
